(** * Verification model of the rust-crawler crawl orchestration core

    Shallow embedding of [src/rust-crawler/src/crawler.rs], [queue.rs] and
    [worker.rs].  Rust strings are modelled as [string] read as a byte
    sequence (one [ascii] per byte, [ascii] being 8 bits wide); a Rust
    [Result] is [result] below.  The browser is abstracted: every renderer
    call that the source unwraps with [?] is an environment value of type
    [result _], and the DOM queries it answers are given as lists. *)

From Stdlib Require Import ZArith Ascii String List Bool Lia Permutation.
Import ListNotations.

Open Scope string_scope.
Open Scope Z_scope.

(** ** Results (anyhow::Result) *)

Inductive result (A : Type) : Type :=
| Ok (a : A)
| Err (e : string).
Arguments Ok {A} a.
Arguments Err {A} e.

Definition is_ok {A} (r : result A) : bool :=
  match r with Ok _ => true | Err _ => false end.

(** ** String helpers (byte-level, as [str] methods with ASCII patterns) *)

Module Str.

(** [strip_prefix p s = Some r] iff [s = p ++ r]. *)
Fixpoint strip_prefix (p s : string) : option string :=
  match p, s with
  | EmptyString, _ => Some s
  | String a p', String b s' =>
      if Ascii.eqb a b then strip_prefix p' s' else None
  | String _ _, EmptyString => None
  end.

Definition starts_with (p s : string) : bool :=
  match strip_prefix p s with Some _ => true | None => false end.

(** Leftmost occurrence of [p] in [s]: the text before it and after it. *)
Fixpoint find_split (p s : string) : option (string * string) :=
  match strip_prefix p s with
  | Some r => Some (EmptyString, r)
  | None =>
      match s with
      | EmptyString => None
      | String c s' =>
          match find_split p s' with
          | Some (b, a) => Some (String c b, a)
          | None => None
          end
      end
  end.

(** [s.contains(p)] *)
Definition contains (s p : string) : bool :=
  match find_split p s with Some _ => true | None => false end.

(** [s.split(p).next()] (always present in Rust). *)
Definition split_first (s p : string) : string :=
  match find_split p s with Some (b, _) => b | None => s end.

(** [s.split(p).nth(1)]: the piece between the first and the second match. *)
Definition split_nth1 (s p : string) : option string :=
  match find_split p s with
  | Some (_, a) => Some (split_first a p)
  | None => None
  end.

(** [char::to_ascii_lowercase] on one byte. *)
Definition lower (c : ascii) : ascii :=
  let n := nat_of_ascii c in
  if (65 <=? n)%nat && (n <=? 90)%nat then ascii_of_nat (n + 32) else c.

(** [str::to_ascii_lowercase]: ASCII letters lowercased, every other byte kept. *)
Fixpoint to_ascii_lowercase (s : string) : string :=
  match s with
  | EmptyString => EmptyString
  | String c s' => String (lower c) (to_ascii_lowercase s')
  end.

(** Every byte is below 128. *)
Definition is_ascii (s : string) : bool :=
  forallb (fun c => (nat_of_ascii c <? 128)%nat) (list_ascii_of_string s).

(** [str::to_lowercase] applies the Unicode lower-case mapping (U+212A
    KELVIN SIGN becomes 'k', for instance); its tables are not embedded.  The
    search code is stated for any function with the one property used here,
    which [str::to_lowercase] has: on a string of ASCII characters it is
    [to_ascii_lowercase]. *)
Definition lowercase_spec (to_lowercase : string -> string) : Prop :=
  forall s, is_ascii s = true -> to_lowercase s = to_ascii_lowercase s.

Fixpoint drop_while_eq (c : ascii) (l : list ascii) : list ascii :=
  match l with
  | x :: l' => if Ascii.eqb x c then drop_while_eq c l' else l
  | [] => []
  end.

(** [s.trim_end_matches(c)] *)
Definition trim_end_matches (s : string) (c : ascii) : string :=
  string_of_list_ascii (rev (drop_while_eq c (rev (list_ascii_of_string s)))).

End Str.

(** ** Bytes *)

Definition byte_of (c : ascii) : Z := Z.of_N (N_of_ascii c).
Definition bytes (s : string) : list Z := map byte_of (list_ascii_of_string s).
Definition string_of_bytes (bs : list Z) : string :=
  string_of_list_ascii (map (fun b => ascii_of_N (Z.to_N b)) bs).

(** UTF-8 well-formedness as checked by [String::from_utf8]
    (Unicode Table 3-7: no overlong forms, no surrogates, at most U+10FFFF). *)
Definition cont (b : Z) : bool := (128 <=? b) && (b <=? 191).
Definition in_range (lo hi b : Z) : bool := (lo <=? b) && (b <=? hi).

Fixpoint utf8_valid (bs : list Z) : bool :=
  match bs with
  | [] => true
  | b :: r =>
      if b <? 128 then utf8_valid r
      else if in_range 194 223 b then
        match r with x :: r' => cont x && utf8_valid r' | _ => false end
      else if in_range 224 239 b then
        match r with
        | x :: y :: r' =>
            (if b =? 224 then in_range 160 191 x
             else if b =? 237 then in_range 128 159 x else cont x)
            && cont y && utf8_valid r'
        | _ => false
        end
      else if in_range 240 244 b then
        match r with
        | x :: y :: z :: r' =>
            (if b =? 240 then in_range 144 191 x
             else if b =? 244 then in_range 128 143 x else cont x)
            && cont y && cont z && utf8_valid r'
        | _ => false
        end
      else false
  end.

(** [String::from_utf8] *)
Definition from_utf8 (bs : list Z) : result string :=
  if utf8_valid bs then Ok (string_of_bytes bs) else Err "invalid utf-8".

(** ** [base64_decode] (crawler.rs) *)

Module B64.

Definition alphabet : string :=
  "ABCDEFGHIJKLMNOPQRSTUVWXYZabcdefghijklmnopqrstuvwxyz0123456789+/".

(** [decode_map.get(&c)]: the map built from [alphabet.chars().enumerate()]. *)
Fixpoint index_from (c : ascii) (s : string) (i : Z) : option Z :=
  match s with
  | EmptyString => None
  | String x s' => if Ascii.eqb x c then Some i else index_from c s' (i + 1)
  end.
Definition decode_map_get (c : ascii) : option Z := index_from c alphabet 0.

(** Loop state: [(buffer, bits_collected, output reversed)]. *)
Definition state : Type := Z * Z * list Z.

(** One iteration of [for c in input.chars()]; [buffer] is a [u32]. *)
Definition step (st : state) (c : ascii) : state :=
  let '(buffer, bits_collected, out) := st in
  match decode_map_get c with
  | Some v =>
      let buffer := Z.lor (Z.shiftl buffer 6) v mod 2 ^ 32 in
      let bits_collected := bits_collected + 6 in
      if 8 <=? bits_collected then
        let bits_collected := bits_collected - 8 in
        (Z.land buffer (Z.shiftl 1 bits_collected - 1),
         bits_collected,
         Z.shiftr buffer bits_collected mod 256 :: out)
      else (buffer, bits_collected, out)
  | None => st
  end.

Definition run (l : list ascii) (st : state) : state := fold_left step l st.

Definition base64_decode (input : string) : result (list Z) :=
  let input := Str.trim_end_matches input "=" in
  let '(_, _, out) := run (list_ascii_of_string input) (0, 0, []) in
  Ok (rev out).

End B64.

(** ** Percent decoding ([urlencoding::decode]) *)

Definition hex_val (c : ascii) : option Z :=
  let n := Z.of_nat (nat_of_ascii c) in
  if in_range 48 57 n then Some (n - 48)
  else if in_range 65 70 n then Some (n - 55)
  else if in_range 97 102 n then Some (n - 87)
  else None.

Fixpoint percent_decode (l : list ascii) : list Z :=
  match l with
  | [] => []
  | c :: l' =>
      if Ascii.eqb c "%" then
        match l' with
        | a :: l'' =>
            match hex_val a with
            | Some x =>
                match l'' with
                | b :: l3 =>
                    match hex_val b with
                    | Some y => x * 16 + y :: percent_decode l3
                    | None => byte_of "%" :: byte_of a :: percent_decode l''
                    end
                | [] => [byte_of "%"; byte_of a]
                end
            | None => byte_of "%" :: percent_decode l'
            end
        | [] => [byte_of "%"]
        end
      else byte_of c :: percent_decode l'
  end.

(** [urlencoding::decode]: borrowed (no check) when no ['%'] occurs. *)
Definition url_decode (s : string) : result string :=
  if Str.contains s "%" then from_utf8 (percent_decode (list_ascii_of_string s))
  else Ok s.

(** ** [decode_search_url] (crawler.rs) *)

Definition decode_bing (url : string) : option string :=
  if Str.contains url "bing.com/ck/a" then
    match Str.split_nth1 url "&u=" with
    | Some u_param =>
        let encoded := Str.split_first u_param "&" in
        let base64_part :=
          if Str.starts_with "a1" encoded then substring 2 (String.length encoded) encoded
          else encoded in
        match B64.base64_decode base64_part with
        | Ok decoded =>
            match from_utf8 decoded with
            | Ok decoded_str => Some decoded_str
            | Err _ => None
            end
        | Err _ => None
        end
    | None => None
    end
  else None.

Definition google_param (url : string) : option string :=
  match Str.split_nth1 url "&url=" with
  | Some p => Some p
  | None => Str.split_nth1 url "?url="
  end.

Definition decode_search_url (url : string) : string :=
  match decode_bing url with
  | Some s => s
  | None =>
      if Str.contains url "google.com/url" then
        match google_param url with
        | Some url_param =>
            match url_decode (Str.split_first url_param "&") with
            | Ok s => s
            | Err _ => url_param
            end
        | None => url
        end
      else url
  end.

(** ** Wrapper URLs built by the claims

    Standard base64 (RFC 4648, section 4, with padding), used to build the
    Bing-style wrapper URLs; it is not part of the crawler. *)

Module B64Enc.

Definition alphabet_list : list ascii := list_ascii_of_string B64.alphabet.

Definition enc_char (v : Z) : ascii := nth (Z.to_nat v) alphabet_list "A"%char.

Fixpoint encode (bs : list Z) : list ascii :=
  match bs with
  | b1 :: b2 :: b3 :: r =>
      enc_char (b1 / 4) :: enc_char (b1 mod 4 * 16 + b2 / 16)
      :: enc_char (b2 mod 16 * 4 + b3 / 64) :: enc_char (b3 mod 64) :: encode r
  | [b1; b2] =>
      [enc_char (b1 / 4); enc_char (b1 mod 4 * 16 + b2 / 16);
       enc_char (b2 mod 16 * 4); "="%char]
  | [b1] => [enc_char (b1 / 4); enc_char (b1 mod 4 * 16); "="%char; "="%char]
  | [] => []
  end.

Definition base64_encode (s : string) : string := string_of_list_ascii (encode (bytes s)).

End B64Enc.

(** [https://www.bing.com/ck/a?...&u=a1<base64 of d>...]: the destination [d]
    under the [u] parameter, behind the provider's fixed prefix ["a1"]. *)
Definition bing_wrapper (pre d post : string) : string :=
  pre ++ "&u=a1" ++ B64Enc.base64_encode d ++ post.

(** The two wrapper formats recognised by [decode_search_url]. *)
Definition matches_bing (url : string) : bool :=
  Str.contains url "bing.com/ck/a" && match Str.split_nth1 url "&u=" with Some _ => true | None => false end.
Definition matches_google (url : string) : bool :=
  Str.contains url "google.com/url" && match google_param url with Some _ => true | None => false end.

(** Characters of the input that [base64_decode] keeps. *)
Definition keep_alphabet (s : string) : string :=
  string_of_list_ascii
    (List.filter (fun c => if B64.decode_map_get c then true else false)
       (list_ascii_of_string s)).

(** ** SERP data model (crawler.rs) *)

Record SearchResult := {
  title : string;
  link : string;
  snippet : string
}.

Record FeaturedSnippet := {
  fs_content : string;
  fs_source_url : option string;
  fs_source_title : option string
}.

Record SerpData := {
  results : list SearchResult;
  people_also_ask : list string;
  related_searches : list string;
  featured_snippet : option FeaturedSnippet;
  total_results : option string
}.

Definition nl : string := String "010"%char EmptyString.

Definition unwrap_or {A} (d : A) (o : option A) : A :=
  match o with Some x => x | None => d end.

(** [challenge_patterns.iter().any(|p| html.to_lowercase().contains(&p.to_lowercase()))],
    [to_lowercase] being [str::to_lowercase] (see [Str.lowercase_spec]). *)
Definition is_challenge (to_lowercase : string -> string) (patterns : list string)
    (html : string) : bool :=
  existsb (fun p => Str.contains (to_lowercase html) (to_lowercase p)) patterns.

(** ** [search_bing] *)

Module Bing.

(** Patterns checked right after the settle wait. *)
Definition challenge_patterns : list string :=
  ["Prove you're not a robot"; "humanity"; "unusual traffic";
   "automated requests"; "hcaptcha"; "recaptcha"; "turnstile";
   "security check"; "One last step"].

(** Patterns of the "Tier 1+" check, used only to label a zero-result log line. *)
Definition tier1_patterns : list string :=
  ["Prove you're not a robot"; "Prove your humanity"; "unusual traffic";
   "automated requests"; "hcaptcha"; "recaptcha"; "blocked"].

(** One [li.b_algo] element: its first [h2 > a] (text, [href] attribute)
    and the text of its first [p]. *)
Record Block := {
  anchor : option (string * option string);
  para : option string
}.

(** What the renderer answers during one Bing attempt.  [launch] stands for
    every [?]-unwrapped call before the first [tab.get_content()]. *)
Record Env := {
  launch : result unit;
  html1 : result string;           (* first get_content, after the settle wait *)
  html2 : result string;           (* second get_content, after the result wait *)
  blocks : list Block;             (* li.b_algo in html2, document order *)
  related : list string;           (* first text node of each related link *)
  count : option string            (* .sb_count text *)
}.

(** The extraction loop over [document.select(&result_selector)]. *)
Fixpoint extract (bs : list Block) : list SearchResult :=
  match bs with
  | [] => []
  | b :: bs' =>
      match anchor b with
      | Some (t, Some l) =>
          {| title := t; link := l; snippet := unwrap_or "" (para b) |} :: extract bs'
      | _ => extract bs'
      end
  end.

(** The reason written to [logs/crawl_failures.log] for a zero-result page
    ([html_content.len() < 50_000] counts bytes). *)
Definition failure_reason (to_lowercase : string -> string) (h : string) : string :=
  if is_challenge to_lowercase tier1_patterns h then "challenge_detected"
  else if Z.of_nat (String.length h) <? 50000 then "page_too_small"
  else "no_results_found".

(** One run of [search_bing]: the reason of the line appended to
    [logs/crawl_failures.log] (when one is), and the returned value. *)
Definition search_bing_run (to_lowercase : string -> string) (env : Env)
    : option string * result SerpData :=
  match launch env with
  | Err e => (None, Err e)
  | Ok _ =>
      match html1 env with
      | Err e => (None, Err e)
      | Ok h1 =>
          if is_challenge to_lowercase challenge_patterns h1
          then (None, Err "Bing Challenge Detected")
          else
            match html2 env with
            | Err e => (None, Err e)
            | Ok h2 =>
                let results := extract (blocks env) in
                (match results with
                 | [] => Some (failure_reason to_lowercase h2)
                 | _ :: _ => None
                 end,
                 Ok {| results := results;
                       people_also_ask := [];
                       related_searches := related env;
                       featured_snippet := None;
                       total_results := count env |})
            end
      end
  end.

Definition search_bing (to_lowercase : string -> string) (env : Env) : result SerpData :=
  snd (search_bing_run to_lowercase env).

End Bing.

(** ** [search_google_attempt] *)

Module Google.

(** One result block of [dom_extract_script]: the trimmed text of its
    heading, the [href] of its link element, the trimmed snippet text. *)
Record Block := {
  heading : option string;
  anchor_href : option string;
  snippet_text : option string
}.

(** The page as seen by [dom_extract_script]. *)
Record Dom := {
  has_main : bool;                 (* [role="main"] or #main *)
  result_blocks : list Block;      (* mainContent.querySelectorAll(...) *)
  has_main_h3 : bool;              (* [role="main"] h3 *)
  has_script_blob : bool           (* a script with "results": or AF_initDataCallback *)
}.

Record Env := {
  launch : result unit;
  (** [tab.evaluate(dom_extract_script)]: [Err] on a script error,
      [Ok None] when the value is not a string. *)
  dom_eval : result (option Dom);
  (** [tab.evaluate(js_extract_script)], already mapped to results. *)
  js_eval : result (option (list SearchResult));
  html : result string;            (* get_content for PAA and related searches *)
  paa : list string;
  related : list string;
  count : option string;
  featured : option FeaturedSnippet
}.

(** The [forEach] body of [dom_extract_script]. *)
Fixpoint collect (bs : list Block) : list SearchResult :=
  match bs with
  | [] => []
  | b :: bs' =>
      match heading b, anchor_href b with
      | Some t, Some h =>
          if negb (String.eqb h "") && negb (Str.contains h "google.com/search")
          then {| title := t; link := h; snippet := unwrap_or "" (snippet_text b) |}
               :: collect bs'
          else collect bs'
      | _, _ => collect bs'
      end
  end.

(** [dom_extract_script]: the method tag and [results.slice(0, 10)]. *)
Definition dom_extract (d : Dom) : string * list SearchResult :=
  if negb (has_main d) then ("dom", [])
  else if match result_blocks d with [] => true | _ => false end
          && negb (has_main_h3 d) && has_script_blob d
  then ("script_fallback", [])
  else ("dom", firstn 10 (collect (result_blocks d))).

Definition extracted (env : Env) : list SearchResult :=
  match dom_eval env with
  | Ok (Some d) => snd (dom_extract d)
  | Ok None => []
  | Err _ =>
      match js_eval env with
      | Ok (Some l) => firstn 10 l         (* googleData.slice(0, 10) *)
      | _ => []
      end
  end.

Definition search_google_attempt (env : Env) : result SerpData :=
  match launch env with
  | Err e => Err e
  | Ok _ =>
      let rs := extracted env in
      match html env with
      | Err e => Err e
      | Ok _ =>
          Ok {| results := rs;
                people_also_ask := paa env;
                related_searches :=
                  List.filter (fun s => (3 <? String.length s)%nat) (related env);
                featured_snippet := featured env;
                total_results := count env |}
      end
  end.

(** The retry wrapper [search_google]: events of one run. *)
Inductive Event := Attempt (n : nat) | Sleep (secs : nat).

(** [for attempt in n..=3]; [k] iterations are left. *)
Fixpoint google_loop (attempt : nat -> result SerpData) (n k : nat)
    (last_error : string) : list Event * result SerpData :=
  match k with
  | O => ([], Err ("Google search failed after 3 attempts. Last error: " ++ last_error))
  | S k' =>
      match attempt n with
      | Ok data =>
          match results data with
          | [] =>
              let '(tr, r) := google_loop attempt (S n) k' last_error in
              if (n <? 3)%nat then (Attempt n :: Sleep (5 * n) :: tr, r)
              else (Attempt n :: tr, r)
          | _ :: _ => ([Attempt n], Ok data)
          end
      | Err e =>
          let '(tr, r) := google_loop attempt (S n) k' e in
          if (n <? 3)%nat then (Attempt n :: Sleep 5 :: tr, r)
          else (Attempt n :: tr, r)
      end
  end.

(** [attempt n] is the outcome of the [n]-th call of [search_google_attempt]. *)
Definition search_google (attempt : nat -> result SerpData) : list Event * result SerpData :=
  google_loop attempt 1 3 "No results found".

End Google.

(** ** [generic_crawl] *)

Module Generic.

Record Env := {
  launch : result unit;            (* Browser::new .. wait_until_navigated *)
  html : result string;            (* get_content *)
  (** [Selector::parse(s)]: [None] if it does not parse, else the text of
      every matching element. *)
  select : string -> option (list string);
  page_title : option string       (* text of the first <title> *)
}.

Fixpoint texts (ts : list string) : string :=
  match ts with [] => "" | t :: ts' => t ++ nl ++ texts ts' end.

(** [for (key, selector_str) in sel_map], in the map's iteration order. *)
Fixpoint accumulate (env : Env) (m : list (string * string)) : string :=
  match m with
  | [] => ""
  | (key, sel) :: m' =>
      match select env sel with
      | Some ts => ("--- " ++ key ++ " ---" ++ nl) ++ texts ts ++ accumulate env m'
      | None => accumulate env m'
      end
  end.

Definition generic_crawl (env : Env) (url : string)
    (selectors : option (list (string * string))) : result SerpData :=
  match launch env with
  | Err e => Err e
  | Ok _ =>
      match html env with
      | Err e => Err e
      | Ok _ =>
          let snippet_acc :=
            match selectors with
            | Some m => accumulate env m
            | None => "No selectors provided. Dumping title." ++ nl ++ unwrap_or "" (page_title env)
            end in
          Ok {| results := [{| title := "Forum Data"; link := url; snippet := snippet_acc |}];
                people_also_ask := [];
                related_searches := [];
                featured_snippet := None;
                total_results := Some "1" |}
      end
  end.

End Generic.

(** ** Job queue (queue.rs) *)

Record CrawlJob := {
  id : string;
  keyword : string;
  engine : string;
  (** [Option<HashMap<String, String>>], in the map's iteration order. *)
  selectors : option (list (string * string))
}.

Module Redis.

(** The Redis list ["crawl_queue"], head first. *)
Definition lpush {V} (x : V) (l : list V) : list V := x :: l.

(** [RPOP]: removes and returns the last element. *)
Fixpoint rpop {V} (l : list V) : option V * list V :=
  match l with
  | [] => (None, [])
  | x :: l' =>
      match rpop l' with
      | (None, _) => (Some x, [])
      | (Some y, l'') => (Some y, x :: l'')
      end
  end.

End Redis.

Section Queue.

(** [V] is the stored value type; [encode] is [serde_json::to_string] and
    [decode] is [serde_json::from_str]. *)
Context {V : Type} (encode : CrawlJob -> V) (decode : V -> result CrawlJob).

Definition push_job (job : CrawlJob) (q : list V) : list V :=
  Redis.lpush (encode job) q.

Definition pop_job (q : list V) : result (option CrawlJob) * list V :=
  match Redis.rpop q with
  | (None, q') => (Ok None, q')
  | (Some json, q') =>
      match decode json with
      | Ok job => (Ok (Some job), q')
      | Err e => (Err e, q')
      end
  end.

Definition push_all (jobs : list CrawlJob) (q : list V) : list V :=
  fold_left (fun q j => push_job j q) jobs q.

(** Pop [n] times, stopping at the first pop that yields no job. *)
Fixpoint drain (n : nat) (q : list V) : list CrawlJob :=
  match n with
  | O => []
  | S n' =>
      match pop_job q with
      | (Ok (Some j), q') => j :: drain n' q'
      | _ => []
      end
  end.

End Queue.

(** ** Worker (worker.rs) *)

(** The fields of [WebsiteData] that [process_job] reads. *)
Record Extracted := {
  x_html : string;
  x_main_text : string;
  x_meta_description : option string;
  x_meta_author : option string;
  x_meta_date : option string
}.

(** A row of the [tasks] table. *)
Record TaskRow := {
  t_id : string;
  t_keyword : string;
  t_engine : string;
  t_status : string;
  t_results_json : string;
  t_extracted_text : string;
  t_first_page_html : string;
  t_meta_description : option string;
  t_meta_author : option string;
  t_meta_date : option string
}.

(** The external calls made by [process_job]. *)
Record Services := {
  svc_search_google : string -> result SerpData;
  svc_generic_crawl : string -> option (list (string * string)) -> result SerpData;
  svc_search_bing : string -> result SerpData;
  svc_extract_website_data : string -> result Extracted;
  svc_to_json : SerpData -> string;
  (** [storage.store_html(key, html)] succeeds *)
  svc_store_ok : string -> string -> bool;
  (** the [INSERT INTO tasks] succeeds on the current table *)
  svc_insert_ok : list TaskRow -> TaskRow -> bool
}.

(** Redis list, [tasks] table, MinIO objects, and the lines written to
    stdout/stderr (newest first). *)
Record WState (V : Type) := {
  w_queue : list V;
  w_tasks : list TaskRow;
  w_blobs : list (string * string);
  w_log : list string
}.

Arguments w_queue {V}.
Arguments w_tasks {V}.
Arguments w_blobs {V}.
Arguments w_log {V}.

Section Worker.

Context {V : Type} (decode : V -> result CrawlJob) (svc : Services).

Definition set_log (st : WState V) (lg : list string) : WState V :=
  {| w_queue := w_queue st; w_tasks := w_tasks st; w_blobs := w_blobs st; w_log := lg |}.

Definition search_step (job : CrawlJob) : result SerpData :=
  if String.eqb (engine job) "google" then svc_search_google svc (keyword job)
  else if String.eqb (engine job) "generic" then svc_generic_crawl svc (keyword job) (selectors job)
  else svc_search_bing svc (keyword job).

Definition process_job (st : WState V) (job : CrawlJob) : result unit * WState V :=
  match search_step job with
  | Err e => (Err e, st)
  | Ok serp_data =>
      let first_result_data :=
        match results serp_data with
        | r :: _ =>
            match svc_extract_website_data svc (link r) with
            | Ok d => Some d
            | Err _ => None
            end
        | [] => None
        end in
      let results_json := svc_to_json svc serp_data in
      let st1 :=
        match first_result_data with
        | Some d =>
            if negb (String.eqb (x_html d) "") then
              let s3_key := engine job ++ "/" ++ id job ++ ".html" in
              if svc_store_ok svc s3_key (x_html d) then
                {| w_queue := w_queue st; w_tasks := w_tasks st;
                   w_blobs := (s3_key, x_html d) :: w_blobs st;
                   w_log := ("[Worker] HTML saved to MinIO: " ++ s3_key) :: w_log st |}
              else set_log st ("[Worker] MinIO upload failed" :: w_log st)
            else st
        | None => st
        end in
      let row :=
        match first_result_data with
        | Some d =>
            {| t_id := id job; t_keyword := keyword job; t_engine := engine job;
               t_status := "completed"; t_results_json := results_json;
               t_extracted_text := x_main_text d; t_first_page_html := x_html d;
               t_meta_description := x_meta_description d;
               t_meta_author := x_meta_author d; t_meta_date := x_meta_date d |}
        | None =>
            {| t_id := id job; t_keyword := keyword job; t_engine := engine job;
               t_status := "completed"; t_results_json := results_json;
               t_extracted_text := ""; t_first_page_html := "";
               t_meta_description := None; t_meta_author := None; t_meta_date := None |}
        end in
      if svc_insert_ok svc (w_tasks st1) row then
        (Ok tt,
         {| w_queue := w_queue st1; w_tasks := row :: w_tasks st1; w_blobs := w_blobs st1;
            w_log := ("[Worker] Job " ++ id job ++ " completed successfully!") :: w_log st1 |})
      else (Err "database error", st1)
  end.

(** One iteration of the [loop] in [start_worker]. *)
Definition worker_step (st : WState V) : WState V :=
  match pop_job decode (w_queue st) with
  | (Ok (Some job), q') =>
      let st0 := {| w_queue := q'; w_tasks := w_tasks st; w_blobs := w_blobs st;
                    w_log := w_log st |} in
      match process_job st0 job with
      | (Ok _, st1) => st1
      | (Err e, st1) => set_log st1 (("[Worker] Job failed: " ++ e) :: w_log st1)
      end
  | (Ok None, q') =>             (* sleep 1000 ms *)
      {| w_queue := q'; w_tasks := w_tasks st; w_blobs := w_blobs st; w_log := w_log st |}
  | (Err e, q') =>               (* sleep 5 s *)
      {| w_queue := q'; w_tasks := w_tasks st; w_blobs := w_blobs st;
         w_log := ("[Worker] Redis error: " ++ e) :: w_log st |}
  end.

End Worker.

(** ** [extract_outbound_links] *)

Section Outbound.

(** The iteration order of a [HashSet]: some permutation of its elements. *)
Variable hash_order : list string -> list string.

(** [hrefs] are the [href] attributes of [a[href]] in document order. *)
Definition extract_outbound_links (hrefs : list string) (base_domain : string) : list string :=
  firstn 50
    (hash_order
       (nodup string_dec
          (List.filter (fun href => Str.starts_with "http" href && negb (Str.contains href base_domain))
             hrefs))).

End Outbound.

(** ** Percent-encoded wrapper URLs

    Percent-encoding of every byte (upper-case hex digits), used to build
    Google-style wrapper URLs; it is not part of the crawler. *)

Module PctEnc.

Definition hex_digits : list ascii := list_ascii_of_string "0123456789ABCDEF".

Definition hex_digit (v : Z) : ascii := nth (Z.to_nat v) hex_digits "0"%char.

Definition encode (bs : list Z) : list ascii :=
  flat_map (fun b => ["%"%char; hex_digit (b / 16); hex_digit (b mod 16)]) bs.

Definition pct_encode (s : string) : string := string_of_list_ascii (encode (bytes s)).

End PctEnc.

(** [https://www.google.com/url?...&url=<percent-encoded d>...] *)
Definition google_wrapper (pre d post : string) : string :=
  pre ++ "&url=" ++ PctEnc.pct_encode d ++ post.

(** ** HTML helpers of the deep extraction (crawler.rs) *)

Module Dom.

(** An element's attributes in source order; the HTML parser keeps the
    first of repeated attributes, so [attr] returns the first match. *)
Definition Element : Type := list (string * string).

Definition attr (el : Element) (name : string) : option string :=
  option_map snd (find (fun kv => String.eqb (fst kv) name) el).

(** [document.select("meta[<key>='<value>']").next()
      .and_then(|e| e.value().attr("content"))], over the document's
    [meta] elements in document order. *)
Definition meta_content (metas : list Element) (key value : string) : option string :=
  match find (fun el => match attr el key with
                        | Some v => String.eqb v value
                        | None => false
                        end) metas with
  | Some el => attr el "content"
  | None => None
  end.

Definition extract_open_graph (metas : list Element)
    : option string * option string * option string * option string :=
  (meta_content metas "property" "og:title",
   meta_content metas "property" "og:description",
   meta_content metas "property" "og:image",
   meta_content metas "property" "og:type").

Record ImageData := {
  src : string;
  alt : option string;
  title : option string
}.

Fixpoint filter_map {A B} (f : A -> option B) (l : list A) : list B :=
  match l with
  | [] => []
  | x :: l' => match f x with Some y => y :: filter_map f l' | None => filter_map f l' end
  end.

(** The closure passed to [filter_map] in [extract_images]. *)
Definition image_data (base_url : string) (el : Element) : option ImageData :=
  match match attr el "src" with Some s => Some s | None => attr el "data-src" end with
  | None => None
  | Some s =>
      if Str.contains s "1x1" || Str.contains s "pixel" || (String.length s <? 10)%nat
      then None
      else Some {| src := if Str.starts_with "http" s then s else base_url ++ s;
                   alt := attr el "alt";
                   title := attr el "title" |}
  end.

(** [imgs] are the [img] elements of the document in document order. *)
Definition extract_images (imgs : list Element) (base_url : string) : list ImageData :=
  firstn 20 (filter_map (image_data base_url) imgs).

End Dom.

(** ** [str::replace] with a non-empty pattern *)

Fixpoint replace_fuel (n : nat) (s from to : string) : string :=
  match n with
  | O => s
  | S n' =>
      match Str.find_split from s with
      | Some (b, a) => b ++ to ++ replace_fuel n' a from to
      | None => s
      end
  end.

(** Each match consumes at least one byte, so [length s + 1] rounds suffice. *)
Definition str_replace (s from to : string) : string :=
  replace_fuel (S (String.length s)) s from to.

(** ** [trigger_crawl] and [get_crawl_status] (api.rs) *)

Module Api.

Record Services := {
  search_google : string -> result SerpData;
  search_bing : string -> result SerpData;
  extract_website_data : string -> result Extracted;
  to_json : SerpData -> string;
  (** [serde_json::to_string_pretty] of the structured response, from
      keyword, engine, websites, serp data and first result data *)
  to_json_pretty : string -> string -> list string -> SerpData -> option Extracted -> result string;
  (** [std::fs::create_dir_all(path)] succeeds *)
  create_dir_ok : string -> bool;
  (** [std::fs::write(path, ..)] succeeds *)
  write_ok : string -> bool;
  (** the [INSERT INTO tasks] succeeds on the current table *)
  insert_ok : list TaskRow -> TaskRow -> bool
}.

(** Files (path, content; [std::fs::write] replaces the content), the
    [tasks] table, and the lines written to stderr (newest first). *)
Record State := {
  files : list (string * string);
  tasks : list TaskRow;
  log : list string
}.

Definition read_file (fs : list (string * string)) (path : string) : option string :=
  option_map snd (find (fun pc => String.eqb (fst pc) path) fs).

(** [std::fs::write]; on failure the line [err] is printed, or nothing when
    the result is discarded ([let _ = ...]). *)
Definition write (svc : Services) (st : State) (path content : string) (err : option string)
    : State :=
  if write_ok svc path then
    {| files := (path, content) :: List.filter (fun pc => negb (String.eqb (fst pc) path)) (files st);
       tasks := tasks st; log := log st |}
  else {| files := files st; tasks := tasks st;
          log := match err with Some m => m :: log st | None => log st end |}.

(** The task spawned by [trigger_crawl]; [storage_path] is [STORAGE_PATH]
    (default ["crawl-results"]). *)
Definition crawl_task (svc : Services) (storage_path task_id keyword : string)
    (engine_opt : option string) (st : State) : State :=
  let engine := unwrap_or "bing" engine_opt in
  let search_results :=
    if String.eqb engine "google" then search_google svc keyword else search_bing svc keyword in
  match search_results with
  | Ok serp_data =>
      let first_result_data :=
        match results serp_data with
        | r :: _ =>
            match extract_website_data svc (link r) with Ok d => Some d | Err _ => None end
        | [] => None
        end in
      let results_json := to_json svc serp_data in
      let st := if create_dir_ok svc storage_path then st
                else {| files := files st; tasks := tasks st;
                        log := "Failed to create storage dir" :: log st |} in
      let safe_keyword := str_replace (str_replace keyword " " "_") "/" "-" in
      let filename_base := storage_path ++ "/" ++ safe_keyword ++ "_" ++ engine ++ "_" ++ task_id in
      let websites := map (fun r => decode_search_url (link r)) (results serp_data) in
      let results_json_pretty :=
        match to_json_pretty svc keyword engine websites serp_data first_result_data with
        | Ok j => j
        | Err _ => results_json
        end in
      let st1 := write svc st (filename_base ++ ".json") results_json_pretty (Some "Failed to write JSON") in
      let row :=
        match first_result_data with
        | Some d =>
            {| t_id := task_id; t_keyword := keyword; t_engine := engine;
               t_status := "completed"; t_results_json := results_json;
               t_extracted_text := x_main_text d; t_first_page_html := x_html d;
               t_meta_description := x_meta_description d;
               t_meta_author := x_meta_author d; t_meta_date := x_meta_date d |}
        | None =>
            {| t_id := task_id; t_keyword := keyword; t_engine := engine;
               t_status := "completed"; t_results_json := results_json;
               t_extracted_text := ""; t_first_page_html := "";
               t_meta_description := None; t_meta_author := None; t_meta_date := None |}
        end in
      let st2 :=
        if negb (String.eqb (t_first_page_html row) "")
        then write svc st1 (filename_base ++ ".html") (t_first_page_html row) (Some "Failed to write HTML")
        else st1 in
      (* the result of the INSERT is discarded *)
      if insert_ok svc (tasks st2) row
      then {| files := files st2; tasks := row :: tasks st2; log := log st2 |}
      else st2
  | Err e =>
      let st1 := {| files := files st; tasks := tasks st; log := ("Crawl failed: " ++ e) :: log st |} in
      write svc st1 "crawl_errors.log" ("Error: " ++ e ++ nl) None
  end.

(** [SELECT ... FROM tasks WHERE id = $1] with [fetch_optional], a query
    error giving [None]. *)
Definition get_crawl_status (db_up : bool) (tasks : list TaskRow) (task_id : string)
    : option TaskRow :=
  if db_up then find (fun r => String.eqb (t_id r) task_id) tasks else None.

End Api.

(** ** Bucket initialisation in [StorageManager::new] (storage.rs) *)

Module Storage.

(** Outcome of [head_bucket]: found, a 404, or another (connection) error. *)
Inductive HeadBucket := Exists | NotFound | OtherError.

(** The [loop]: [i] counts iterations, [attempts] the connection errors;
    the result is paired with the number of 2 s sleeps, and [None] means
    the loop has not finished within [fuel] iterations. *)
Fixpoint init_loop (fuel : nat) (head : nat -> HeadBucket) (create_ok : nat -> bool)
    (i attempts : nat) : option (result unit * nat) :=
  match fuel with
  | O => None
  | S f =>
      match head i with
      | Exists => Some (Ok tt, O)
      | NotFound =>
          if create_ok i then Some (Ok tt, O)
          else init_loop f head create_ok (S i) attempts
      | OtherError =>
          let attempts := S attempts in
          if (30 <=? attempts)%nat
          then Some (Err "Failed to connect to MinIO after 30 attempts", O)
          else match init_loop f head create_ok (S i) attempts with
               | Some (r, n) => Some (r, S n)
               | None => None
               end
      end
  end.

Definition new (fuel : nat) (head : nat -> HeadBucket) (create_ok : nat -> bool)
    : option (result unit * nat) :=
  init_loop fuel head create_ok 0 0.

End Storage.

(** ** Database connection loop of [main] (main.rs) *)

Module Main.

(** [connect n] is the outcome of the [n]-th [PgPoolOptions::connect]
    (from 0); the result is paired with the number of 2 s sleeps. *)
Fixpoint connect_loop (fuel : nat) (connect : nat -> result unit) (attempts : nat)
    : option (result unit * nat) :=
  match fuel with
  | O => None
  | S f =>
      match connect attempts with
      | Ok _ => Some (Ok tt, O)
      | Err e =>
          let attempts := S attempts in
          if (15 <=? attempts)%nat then Some (Err e, O)
          else match connect_loop f connect attempts with
               | Some (r, n) => Some (r, S n)
               | None => None
               end
      end
  end.

Definition connect_db (fuel : nat) (connect : nat -> result unit) : option (result unit * nat) :=
  connect_loop fuel connect 0.

End Main.

(** ** The worker's polling loop *)

Section WorkerLoop.

Context {V : Type} (decode : V -> result CrawlJob) (svc : Services).

(** [n] iterations of the [loop] in [start_worker]. *)
Fixpoint run_worker (n : nat) (st : WState V) : WState V :=
  match n with
  | O => st
  | S n' => run_worker n' (worker_step decode svc st)
  end.

End WorkerLoop.

(* ================================================================== *)
(** * Proofs *)

(** ** String lemmas *)

Module StrFacts.
Import Str.

Lemma sapp_assoc (x y z : string) : x ++ (y ++ z) = (x ++ y) ++ z.
Proof. induction x as [|c x IH]; simpl; congruence. Qed.

Lemma sapp_nil_r (x : string) : x ++ "" = x.
Proof. induction x as [|c x IH]; simpl; congruence. Qed.

Lemma strip_prefix_spec p s r : strip_prefix p s = Some r -> s = p ++ r.
Proof.
  revert s; induction p as [|a p IH]; intros [|b s] H; simpl in *;
    try congruence.
  destruct (Ascii.eqb_spec a b); [subst; f_equal; auto | discriminate].
Qed.

Lemma strip_prefix_app p r : strip_prefix p (p ++ r) = Some r.
Proof. induction p as [|a p IH]; simpl; [reflexivity|]. now rewrite Ascii.eqb_refl. Qed.

Lemma strip_prefix_app_some p s r t :
  strip_prefix p s = Some r -> strip_prefix p (s ++ t) = Some (r ++ t).
Proof.
  intros H. apply strip_prefix_spec in H. subst s.
  rewrite <- sapp_assoc. apply strip_prefix_app.
Qed.

Lemma slength_app (x y : string) :
  String.length (x ++ y) = (String.length x + String.length y)%nat.
Proof. induction x as [|c x IH]; simpl; congruence. Qed.

Lemma strip_prefix_app_none p s t :
  strip_prefix p s = None -> (String.length p <= String.length s)%nat ->
  strip_prefix p (s ++ t) = None.
Proof.
  revert s; induction p as [|a p IH]; intros [|b s] H Hl; simpl in *;
    try discriminate; try lia.
  destruct (Ascii.eqb a b); [apply IH; auto; lia | reflexivity].
Qed.

Lemma find_split_spec p s b a : find_split p s = Some (b, a) -> s = b ++ p ++ a.
Proof.
  revert b a; induction s as [|c s IH]; intros b a H; simpl in H.
  - destruct (strip_prefix p "") eqn:E; inversion H; subst.
    apply strip_prefix_spec in E. exact E.
  - destruct (strip_prefix p (String c s)) eqn:E.
    + inversion H; subst. apply strip_prefix_spec in E. exact E.
    + destruct (find_split p s) as [[b' a']|] eqn:F; inversion H; subst.
      simpl. f_equal. apply IH. reflexivity.
Qed.

Lemma find_split_app p s t b a :
  find_split p s = Some (b, a) -> find_split p (s ++ t) = Some (b, a ++ t).
Proof.
  revert b a; induction s as [|c s IH]; intros b a H.
  - simpl in H. destruct (strip_prefix p "") eqn:E; inversion H; subst.
    simpl. apply (strip_prefix_app_some _ _ _ t) in E. simpl in E.
    destruct t; simpl in *; rewrite E; reflexivity.
  - change (String c s ++ t) with (String c (s ++ t)).
    simpl in H. simpl.
    destruct (strip_prefix p (String c s)) eqn:E.
    + inversion H; subst.
      apply (strip_prefix_app_some _ _ _ t) in E. simpl in E. rewrite E.
      reflexivity.
    + destruct (find_split p s) as [[b' a']|] eqn:F; inversion H; subst.
      apply (strip_prefix_app_none _ _ t) in E.
      * simpl in E. rewrite E. rewrite (IH _ _ eq_refl). reflexivity.
      * apply find_split_spec in F. subst s. simpl.
        rewrite !slength_app. lia.
Qed.

Lemma contains_app_l s t p : contains s p = true -> contains (s ++ t) p = true.
Proof.
  unfold contains. destruct (find_split p s) as [[b a]|] eqn:F; [|discriminate].
  rewrite (find_split_app _ _ t _ _ F). reflexivity.
Qed.

Fixpoint no_amp (s : string) : bool :=
  match s with
  | EmptyString => true
  | String c s' => negb (Ascii.eqb c "&") && no_amp s'
  end.

Lemma no_amp_app x y : no_amp (x ++ y) = no_amp x && no_amp y.
Proof. induction x as [|c x IH]; simpl; [reflexivity|]. rewrite IH. apply andb_assoc. Qed.

Lemma find_split_cons p c s :
  strip_prefix p (String c s) = None ->
  find_split p (String c s) =
  match find_split p s with Some (b, a) => Some (String c b, a) | None => None end.
Proof. intros H. simpl. rewrite H. reflexivity. Qed.

Lemma strip_prefix_amp_other p' c s :
  c <> "&"%char -> strip_prefix (String "&" p') (String c s) = None.
Proof.
  intros Hc. cbn [strip_prefix].
  destruct (Ascii.eqb_spec "&" c); [congruence|reflexivity].
Qed.

Lemma find_split_no_amp p' x y :
  no_amp x = true ->
  find_split (String "&" p') (x ++ y) =
  match find_split (String "&" p') y with
  | Some (b, a) => Some (x ++ b, a)
  | None => None
  end.
Proof.
  induction x as [|c x IH]; intros H.
  - simpl. destruct (find_split (String "&" p') y) as [[b a]|]; reflexivity.
  - cbn [no_amp] in H. apply andb_true_iff in H as [Hc Hx].
    change (String c x ++ y) with (String c (x ++ y)).
    rewrite find_split_cons.
    + rewrite (IH Hx).
      destruct (find_split (String "&" p') y) as [[b a]|]; reflexivity.
    + apply strip_prefix_amp_other.
      destruct (Ascii.eqb_spec c "&"); [discriminate|assumption].
Qed.

Lemma split_first_cons p c s :
  strip_prefix p (String c s) = None ->
  split_first (String c s) p = String c (split_first s p).
Proof.
  intros H. unfold split_first. simpl. rewrite H.
  destruct (find_split p s) as [[b a]|]; reflexivity.
Qed.

Lemma split_first_prefix p s r : strip_prefix p s = Some r -> split_first s p = "".
Proof. intros H. unfold split_first. destruct s; cbn [find_split]; rewrite H; reflexivity. Qed.

Lemma split_first_head p c s :
  split_first (String c s) p = "" \/ exists b, split_first (String c s) p = String c b.
Proof.
  unfold split_first. cbn [find_split].
  destruct (strip_prefix p (String c s)); [left; reflexivity|].
  destruct (find_split p s) as [[b a]|]; right; eauto.
Qed.

(** Cutting at the first ["&u="] before cutting at the first ['&'] changes nothing. *)
Lemma split_first_amp_u s : split_first (split_first s "&u=") "&" = split_first s "&".
Proof.
  induction s as [|c s IH]; [reflexivity|].
  destruct (Ascii.eqb_spec "&" c) as [<-|Hc].
  - rewrite (split_first_prefix "&" (String "&" s) s eq_refl).
    destruct (split_first_head "&u=" "&" s) as [->|[b ->]]; reflexivity.
  - assert (Hc' : c <> "&"%char) by congruence.
    pose proof (strip_prefix_amp_other "u=" c s Hc') as E1.
    pose proof (fun w => strip_prefix_amp_other "" c w Hc') as E2.
    rewrite (split_first_cons _ _ _ E1), !(split_first_cons _ _ _ (E2 _)).
    now rewrite IH.
Qed.

Lemma split_first_no_amp x y :
  no_amp x = true -> (y = "" \/ starts_with "&" y = true) ->
  split_first (x ++ y) "&" = x.
Proof.
  intros Hx Hy. unfold split_first. rewrite (find_split_no_amp "" x y Hx).
  destruct Hy as [->|Hy].
  - simpl. apply sapp_nil_r.
  - destruct y as [|c y]; [discriminate|]. unfold starts_with in Hy.
    cbn [strip_prefix] in Hy.
    destruct (Ascii.eqb_spec "&" c) as [<-|]; [|discriminate].
    simpl. apply sapp_nil_r.
Qed.

Lemma substring_all e m : (String.length e <= m)%nat -> substring 0 m e = e.
Proof.
  revert m; induction e as [|c e IH]; intros [|m] H; simpl in *; try lia;
    try reflexivity.
  f_equal. apply IH. lia.
Qed.

End StrFacts.

(** ** Facts on [base64_decode] *)

Module B64Facts.
Import B64 B64Enc.

Ltac zsolve := Z.div_mod_to_equations; lia.

Lemma lor_shiftl6 a v : 0 <= a -> 0 <= v < 64 -> Z.lor (Z.shiftl a 6) v = a * 64 + v.
Proof.
  intros Ha Hv. rewrite Z.shiftl_mul_pow2 by lia.
  assert (D : Z.land (a * 2 ^ 6) v = 0).
  { apply Z.bits_inj'. intros n Hn. rewrite Z.land_spec, Z.bits_0.
    destruct (Z.lt_ge_cases n 6).
    - rewrite Z.mul_pow2_bits by lia. rewrite Z.testbit_neg_r by lia. reflexivity.
    - rewrite <- (Z.mod_small v (2 ^ 6)) by (simpl; lia).
      rewrite Z.mod_pow2_bits_high by lia. apply andb_false_r. }
  rewrite <- Z.lxor_lor by exact D. rewrite <- Z.add_nocarry_lxor by exact D.
  reflexivity.
Qed.

Lemma step_none st c : decode_map_get c = None -> step st c = st.
Proof. intros H. destruct st as [[b n] o]. unfold step. rewrite H. reflexivity. Qed.

Lemma step_some_lt buf bits out c v :
  decode_map_get c = Some v -> 0 <= v < 64 -> 0 <= buf < 64 -> bits + 6 < 8 ->
  step (buf, bits, out) c = (buf * 64 + v, bits + 6, out).
Proof.
  intros Hc Hv Hb Hn. unfold step. rewrite Hc, lor_shiftl6 by lia.
  rewrite Z.mod_small by lia.
  destruct (Z.leb_spec 8 (bits + 6)); [lia|reflexivity].
Qed.

Lemma step_some_ge buf bits out c v :
  decode_map_get c = Some v -> 0 <= v < 64 -> 0 <= buf < 64 -> 8 <= bits + 6 ->
  2 <= bits ->
  step (buf, bits, out) c =
  ((buf * 64 + v) mod 2 ^ (bits - 2), bits - 2,
   (buf * 64 + v) / 2 ^ (bits - 2) mod 256 :: out).
Proof.
  intros Hc Hv Hb Hn H2. unfold step. rewrite Hc, lor_shiftl6 by lia.
  rewrite Z.mod_small by lia.
  destruct (Z.leb_spec 8 (bits + 6)); [|lia].
  replace (bits + 6 - 8) with (bits - 2) by lia.
  rewrite Z.shiftl_1_l, Z.shiftr_div_pow2 by lia.
  replace (2 ^ (bits - 2) - 1) with (Z.ones (bits - 2))
    by (rewrite Z.ones_equiv; lia).
  rewrite Z.land_ones by lia. reflexivity.
Qed.

(** Every sextet value is mapped back by the decoder's table. *)
Lemma decode_enc_table :
  forallb (fun n => match decode_map_get (enc_char (Z.of_nat n)) with
                    | Some w => w =? Z.of_nat n
                    | None => false
                    end) (seq 0 64) = true.
Proof. vm_compute. reflexivity. Qed.

Lemma decode_enc_char v : 0 <= v < 64 -> decode_map_get (enc_char v) = Some v.
Proof.
  intros Hv.
  pose proof (proj1 (forallb_forall _ _) decode_enc_table (Z.to_nat v)) as H.
  assert (Hin : In (Z.to_nat v) (seq 0 64)) by (apply in_seq; lia).
  specialize (H Hin). cbv beta in H. rewrite Z2Nat.id in H by lia.
  destruct (decode_map_get (enc_char v)) as [w|]; [|discriminate].
  apply Z.eqb_eq in H. congruence.
Qed.

Lemma step_enc0 buf out v : 0 <= v < 64 -> 0 <= buf < 64 ->
  step (buf, 0, out) (enc_char v) = (buf * 64 + v, 6, out).
Proof. intros. rewrite (step_some_lt _ _ _ _ v); auto using decode_enc_char; lia. Qed.

Lemma step_enc6 buf out v : 0 <= v < 64 -> 0 <= buf < 64 ->
  step (buf, 6, out) (enc_char v) =
  ((buf * 64 + v) mod 16, 4, (buf * 64 + v) / 16 mod 256 :: out).
Proof. intros. rewrite (step_some_ge _ _ _ _ v); auto using decode_enc_char; lia. Qed.

Lemma step_enc4 buf out v : 0 <= v < 64 -> 0 <= buf < 64 ->
  step (buf, 4, out) (enc_char v) =
  ((buf * 64 + v) mod 4, 2, (buf * 64 + v) / 4 mod 256 :: out).
Proof. intros. rewrite (step_some_ge _ _ _ _ v); auto using decode_enc_char; lia. Qed.

Lemma step_enc2 buf out v : 0 <= v < 64 -> 0 <= buf < 64 ->
  step (buf, 2, out) (enc_char v) = (0, 0, (buf * 64 + v) mod 256 :: out).
Proof.
  intros. rewrite (step_some_ge _ _ _ _ v); auto using decode_enc_char; try lia.
  simpl. rewrite Z.mod_1_r, Z.div_1_r. reflexivity.
Qed.

Lemma step_pad st : step st "=" = st.
Proof. apply step_none. reflexivity. Qed.

Lemma run_app l1 l2 st : run (l1 ++ l2)%list st = run l2 (run l1 st).
Proof. apply fold_left_app. Qed.

Lemma run_chunk b1 b2 b3 out r :
  0 <= b1 < 256 -> 0 <= b2 < 256 -> 0 <= b3 < 256 ->
  run (enc_char (b1 / 4) :: enc_char (b1 mod 4 * 16 + b2 / 16)
       :: enc_char (b2 mod 16 * 4 + b3 / 64) :: enc_char (b3 mod 64) :: r)
      (0, 0, out)
  = run r (0, 0, b3 :: b2 :: b1 :: out).
Proof.
  intros H1 H2 H3. unfold run. cbn [fold_left].
  rewrite step_enc0 by zsolve. rewrite step_enc6 by zsolve.
  replace ((0 * 64 + b1 / 4) * 64 + (b1 mod 4 * 16 + b2 / 16))
    with (b1 * 16 + b2 / 16) by zsolve.
  replace ((b1 * 16 + b2 / 16) mod 16) with (b2 / 16) by zsolve.
  replace ((b1 * 16 + b2 / 16) / 16 mod 256) with b1 by zsolve.
  rewrite step_enc4 by zsolve.
  replace (b2 / 16 * 64 + (b2 mod 16 * 4 + b3 / 64)) with (b2 * 4 + b3 / 64)
    by zsolve.
  replace ((b2 * 4 + b3 / 64) mod 4) with (b3 / 64) by zsolve.
  replace ((b2 * 4 + b3 / 64) / 4 mod 256) with b2 by zsolve.
  rewrite step_enc2 by zsolve.
  replace ((b3 / 64 * 64 + b3 mod 64) mod 256) with b3 by zsolve.
  reflexivity.
Qed.

Lemma run_encode : forall bs out,
  Forall (fun b => 0 <= b < 256) bs ->
  exists buf bits, run (encode bs) (0, 0, out) = (buf, bits, (rev bs ++ out)%list).
Proof.
  fix IH 1. intros [|b1 [|b2 [|b3 r]]] out HF.
  - exists 0, 0. reflexivity.
  - apply Forall_cons_iff in HF as [Hb1 _].
    unfold run. cbn [encode fold_left].
    rewrite step_enc0 by zsolve. rewrite step_enc6 by zsolve. rewrite !step_pad.
    replace ((0 * 64 + b1 / 4) * 64 + b1 mod 4 * 16) with (b1 * 16) by zsolve.
    replace (b1 * 16 / 16 mod 256) with b1 by zsolve.
    eexists _, _. reflexivity.
  - apply Forall_cons_iff in HF as [Hb1 HF]. apply Forall_cons_iff in HF as [Hb2 _].
    unfold run. cbn [encode fold_left].
    rewrite step_enc0 by zsolve. rewrite step_enc6 by zsolve.
    replace ((0 * 64 + b1 / 4) * 64 + (b1 mod 4 * 16 + b2 / 16))
      with (b1 * 16 + b2 / 16) by zsolve.
    replace ((b1 * 16 + b2 / 16) mod 16) with (b2 / 16) by zsolve.
    replace ((b1 * 16 + b2 / 16) / 16 mod 256) with b1 by zsolve.
    rewrite step_enc4 by zsolve. rewrite step_pad.
    replace ((b2 / 16 * 64 + b2 mod 16 * 4) / 4 mod 256) with b2 by zsolve.
    eexists _, _. reflexivity.
  - apply Forall_cons_iff in HF as [Hb1 HF]. apply Forall_cons_iff in HF as [Hb2 HF].
    apply Forall_cons_iff in HF as [Hb3 HF].
    cbn [encode]. rewrite run_chunk by assumption.
    destruct (IH r (b3 :: b2 :: b1 :: out) HF) as [buf [bits E]].
    exists buf, bits. rewrite E. cbn [rev]. rewrite <- !app_assoc. reflexivity.
Qed.

Lemma drop_while_split c (m : list ascii) :
  exists k, m = (repeat c k ++ Str.drop_while_eq c m)%list.
Proof.
  induction m as [|a m [k Hk]]; [exists 0%nat; reflexivity|].
  cbn [Str.drop_while_eq]. destruct (Ascii.eqb_spec a c) as [->|].
  - exists (S k). cbn. congruence.
  - exists 0%nat. reflexivity.
Qed.

Lemma run_pads k st : run (repeat "="%char k) st = st.
Proof. induction k as [|k IH]; [reflexivity|]. unfold run in *. cbn. rewrite step_pad. apply IH. Qed.

(** [trim_end_matches('=')] does not change what the loop computes. *)
Lemma run_trim l st : run (rev (Str.drop_while_eq "=" (rev l))) st = run l st.
Proof.
  destruct (drop_while_split "=" (rev l)) as [k Hk].
  assert (El : l = (rev (Str.drop_while_eq "=" (rev l)) ++ repeat "="%char k)%list).
  { rewrite <- (rev_repeat k "="%char). rewrite <- rev_app_distr, <- Hk.
    symmetry. apply rev_involutive. }
  rewrite El at 2. rewrite run_app, run_pads. reflexivity.
Qed.

Lemma base64_decode_run s :
  base64_decode s =
  let '(_, _, out) := run (list_ascii_of_string s) (0, 0, []) in Ok (rev out).
Proof.
  unfold base64_decode, Str.trim_end_matches.
  rewrite list_ascii_of_string_of_list_ascii, run_trim. reflexivity.
Qed.

Lemma run_filter l st :
  run l st = run (List.filter (fun c => if decode_map_get c then true else false) l) st.
Proof.
  revert st; induction l as [|a l IH]; intros st; [reflexivity|].
  unfold run in *. cbn [fold_left List.filter].
  destruct (decode_map_get a) eqn:E.
  - cbn [fold_left]. apply IH.
  - rewrite step_none by exact E. apply IH.
Qed.

Lemma bytes_range d : Forall (fun b => 0 <= b < 256) (bytes d).
Proof.
  unfold bytes. apply Forall_forall. intros b Hb. apply in_map_iff in Hb as [c [<- _]].
  unfold byte_of. pose proof (N_ascii_bounded c). lia.
Qed.

Lemma string_of_bytes_bytes d : string_of_bytes (bytes d) = d.
Proof.
  unfold string_of_bytes, bytes. rewrite map_map.
  rewrite (map_ext_in _ (fun c => c)).
  - rewrite map_id. apply string_of_list_ascii_of_string.
  - intros c _. unfold byte_of. rewrite N2Z.id. apply ascii_N_embedding.
Qed.

Lemma from_utf8_bytes d : utf8_valid (bytes d) = true -> from_utf8 (bytes d) = Ok d.
Proof. intros H. unfold from_utf8. rewrite H, string_of_bytes_bytes. reflexivity. Qed.

Lemma decode_encode d : base64_decode (base64_encode d) = Ok (bytes d).
Proof.
  rewrite base64_decode_run. unfold base64_encode.
  rewrite list_ascii_of_string_of_list_ascii.
  destruct (run_encode (bytes d) [] (bytes_range d)) as [buf [bits ->]].
  rewrite app_nil_r, rev_involutive. reflexivity.
Qed.

Lemma alphabet_no_amp : forallb (fun c => negb (Ascii.eqb c "&")) alphabet_list = true.
Proof. reflexivity. Qed.

Lemma enc_char_not_amp v : enc_char v <> "&"%char.
Proof.
  unfold enc_char. destruct (Nat.lt_ge_cases (Z.to_nat v) (length alphabet_list)) as [H|H].
  - pose proof (proj1 (forallb_forall _ _) alphabet_no_amp _ (nth_In _ "A"%char H)) as Hc.
    cbv beta in Hc. intros E. rewrite E in Hc. discriminate.
  - rewrite nth_overflow by exact H. discriminate.
Qed.

Lemma encode_no_amp : forall bs, Forall (fun c => c <> "&"%char) (encode bs).
Proof.
  fix IH 1. intros [|b1 [|b2 [|b3 r]]]; cbn [encode];
    repeat constructor; try apply enc_char_not_amp; try discriminate; apply IH.
Qed.

Lemma no_amp_of_list l :
  Forall (fun c => c <> "&"%char) l -> StrFacts.no_amp (string_of_list_ascii l) = true.
Proof.
  induction l as [|c l IH]; intros H; [reflexivity|].
  apply Forall_cons_iff in H as [Hc Hl]. cbn. rewrite (IH Hl).
  destruct (Ascii.eqb_spec c "&"); [contradiction|reflexivity].
Qed.

End B64Facts.

(** ** De-redirection and the base64 decoder *)

Lemma sapp_nil_l (y : string) : "" ++ y = y.
Proof. reflexivity. Qed.

Lemma substring_a1 (e : string) :
  substring 2 (String.length ("a1" ++ e)) ("a1" ++ e) = e.
Proof. apply StrFacts.substring_all. simpl. lia. Qed.

(** C10: [base64_decode] never returns [Err]; every character outside the
    standard 64-character alphabet (['='], ['-'] and ['_'] among them) is
    skipped, so the result only depends on the alphabet characters of the
    input. *)
Theorem base64_decode_never_fails (s : string) :
  (exists out, B64.base64_decode s = Ok out)
  /\ B64.base64_decode s = B64.base64_decode (keep_alphabet s)
  /\ B64.decode_map_get "-" = None /\ B64.decode_map_get "_" = None.
Proof.
  split; [|split; [|split; reflexivity]].
  - rewrite B64Facts.base64_decode_run.
    destruct (B64.run _ _) as [[b n] out]. eauto.
  - rewrite !B64Facts.base64_decode_run. unfold keep_alphabet.
    rewrite list_ascii_of_string_of_list_ascii, <- B64Facts.run_filter.
    reflexivity.
Qed.

(** C7: on a Bing wrapper URL [pre ++ "&u=a1" ++ base64(d) ++ post] (the
    first ["&u="] of the URL being the one of the wrapper, [post] empty or
    starting a new parameter), [decode_search_url] returns exactly [d], for
    every destination string [d] (a Rust string, so valid UTF-8). *)
Theorem decode_search_url_bing_roundtrip (pre d post : string) :
  Str.contains pre "bing.com/ck/a" = true ->
  Str.find_split "&u=" (pre ++ "&u=") = Some (pre, "") ->
  post = "" \/ Str.starts_with "&" post = true ->
  utf8_valid (bytes d) = true ->
  decode_search_url (bing_wrapper pre d post) = d.
Proof.
  intros Hc Hf Hp Hu.
  set (enc := B64Enc.base64_encode d).
  assert (Hurl : bing_wrapper pre d post = (pre ++ "&u=") ++ ("a1" ++ enc ++ post)).
  { unfold bing_wrapper. rewrite <- StrFacts.sapp_assoc. reflexivity. }
  assert (Henc : StrFacts.no_amp ("a1" ++ enc) = true).
  { rewrite StrFacts.no_amp_app. apply B64Facts.no_amp_of_list, B64Facts.encode_no_amp. }
  unfold decode_search_url, decode_bing. rewrite Hurl.
  rewrite (StrFacts.contains_app_l _ _ _ (StrFacts.contains_app_l _ _ _ Hc)).
  unfold Str.split_nth1. rewrite (StrFacts.find_split_app _ _ _ _ _ Hf).
  rewrite sapp_nil_l, StrFacts.split_first_amp_u, StrFacts.sapp_assoc.
  rewrite (StrFacts.split_first_no_amp _ _ Henc Hp).
  unfold Str.starts_with. rewrite StrFacts.strip_prefix_app, substring_a1.
  unfold enc. rewrite B64Facts.decode_encode, B64Facts.from_utf8_bytes by exact Hu.
  reflexivity.
Qed.

Lemma decode_search_url_plain url :
  matches_bing url = false -> matches_google url = false -> decode_search_url url = url.
Proof.
  unfold matches_bing, matches_google. intros Hb Hg.
  assert (Hd : decode_bing url = None).
  { unfold decode_bing. destruct (Str.contains url "bing.com/ck/a"); [|reflexivity].
    destruct (Str.split_nth1 url "&u="); [discriminate|reflexivity]. }
  unfold decode_search_url. rewrite Hd.
  destruct (Str.contains url "google.com/url"); [|reflexivity].
  destruct (google_param url); [discriminate|reflexivity].
Qed.

(** C8: on a URL matching neither wrapper format, [decode_search_url] is
    idempotent (it returns the URL unchanged). *)
Theorem decode_search_url_idempotent (url : string) :
  matches_bing url = false -> matches_google url = false ->
  decode_search_url (decode_search_url url) = decode_search_url url.
Proof. intros Hb Hg. rewrite !(decode_search_url_plain url Hb Hg). reflexivity. Qed.

Lemma decode_search_url_bing_roundtrip_witness :
  decode_search_url
    (bing_wrapper "https://www.bing.com/ck/a?!&&p=1" "https://example.com/" "&ntb=1")
  = "https://example.com/".
Proof.
  apply decode_search_url_bing_roundtrip; [vm_compute; reflexivity | vm_compute; reflexivity
  | right; vm_compute; reflexivity | vm_compute; reflexivity].
Defined.

Lemma decode_search_url_idempotent_witness :
  decode_search_url (decode_search_url "https://example.com/")
  = decode_search_url "https://example.com/".
Proof. apply decode_search_url_idempotent; vm_compute; reflexivity. Defined.

(** ** Search engines *)

Lemma is_challenge_unusual_traffic lc (Hlc : Str.lowercase_spec lc) h :
  Str.contains (lc h) "unusual traffic" = true ->
  is_challenge lc Bing.challenge_patterns h = true.
Proof.
  intros Hc. unfold is_challenge. apply existsb_exists.
  exists "unusual traffic". split; [simpl; tauto|].
  rewrite (Hlc "unusual traffic" eq_refl). exact Hc.
Qed.

Lemma failure_reason_unusual_traffic lc (Hlc : Str.lowercase_spec lc) h :
  Str.contains (lc h) "unusual traffic" = true ->
  Bing.failure_reason lc h = "challenge_detected".
Proof.
  intros Hc. unfold Bing.failure_reason.
  replace (is_challenge lc Bing.tier1_patterns h) with true; [reflexivity|].
  symmetry. unfold is_challenge. apply existsb_exists.
  exists "unusual traffic". split; [simpl; tauto|].
  rewrite (Hlc "unusual traffic" eq_refl). exact Hc.
Qed.

Lemma search_bing_challenge lc env h1 :
  Bing.launch env = Ok tt -> Bing.html1 env = Ok h1 ->
  is_challenge lc Bing.challenge_patterns h1 = true ->
  Bing.search_bing lc env = Err "Bing Challenge Detected".
Proof.
  intros Hl Hh Hc. unfold Bing.search_bing, Bing.search_bing_run. rewrite Hl, Hh, Hc.
  reflexivity.
Qed.

Lemma search_bing_run_ok lc env h1 h2 :
  Bing.launch env = Ok tt -> Bing.html1 env = Ok h1 ->
  is_challenge lc Bing.challenge_patterns h1 = false -> Bing.html2 env = Ok h2 ->
  Bing.search_bing_run lc env =
    (match Bing.extract (Bing.blocks env) with
     | [] => Some (Bing.failure_reason lc h2)
     | _ :: _ => None
     end,
     Ok {| results := Bing.extract (Bing.blocks env); people_also_ask := [];
           related_searches := Bing.related env; featured_snippet := None;
           total_results := Bing.count env |}).
Proof.
  intros Hl Hh Hc H2. unfold Bing.search_bing_run. rewrite Hl, Hh, Hc, H2. reflexivity.
Qed.

Lemma search_bing_ok lc env h1 h2 :
  Bing.launch env = Ok tt -> Bing.html1 env = Ok h1 ->
  is_challenge lc Bing.challenge_patterns h1 = false -> Bing.html2 env = Ok h2 ->
  Bing.search_bing lc env =
    Ok {| results := Bing.extract (Bing.blocks env); people_also_ask := [];
          related_searches := Bing.related env; featured_snippet := None;
          total_results := Bing.count env |}.
Proof.
  intros Hl Hh Hc H2. unfold Bing.search_bing.
  rewrite (search_bing_run_ok lc env h1 h2 Hl Hh Hc H2). reflexivity.
Qed.

Lemma extract_length bs :
  forallb (fun b => match Bing.anchor b with Some (_, Some _) => true | _ => false end) bs = true ->
  length (Bing.extract bs) = length bs.
Proof.
  induction bs as [|b bs IH]; [reflexivity|].
  simpl. destruct (Bing.anchor b) as [[t [l|]]|]; simpl; try discriminate.
  intros H. f_equal. apply IH, H.
Qed.

Lemma firstn_length_le_10 {A} (l : list A) : (length (firstn 10 l) <= 10)%nat.
Proof. rewrite length_firstn. lia. Qed.

(** The Google attempt keeps at most 10 results (both extraction paths
    slice to 10). *)
Lemma search_google_attempt_at_most_10 env serp :
  Google.search_google_attempt env = Ok serp -> (length (results serp) <= 10)%nat.
Proof.
  unfold Google.search_google_attempt.
  destruct (Google.launch env); [|discriminate].
  destruct (Google.html env); [|discriminate].
  intros H. injection H as <-. simpl. unfold Google.extracted.
  destruct (Google.dom_eval env) as [[d|]|].
  - unfold Google.dom_extract.
    destruct (negb (Google.has_main d)); [simpl; lia|].
    destruct (_ && _ && _); [simpl; lia|]. apply firstn_length_le_10.
  - simpl; lia.
  - destruct (Google.js_eval env) as [[l|]|]; [apply firstn_length_le_10|simpl; lia..].
Qed.

(** C1 (code_bug): [search_bing] keeps every [li.b_algo] block that has a
    linked [h2 > a]; nothing truncates its result list to 10, so a page with
    more than 10 such blocks yields more than 10 results.  This holds for any
    lower-casing function, [str::to_lowercase] included. *)
Theorem search_bing_no_cap (to_lowercase : string -> string) (env : Bing.Env)
    (h1 h2 : string) :
  Bing.launch env = Ok tt -> Bing.html1 env = Ok h1 ->
  is_challenge to_lowercase Bing.challenge_patterns h1 = false -> Bing.html2 env = Ok h2 ->
  forallb (fun b => match Bing.anchor b with Some (_, Some _) => true | _ => false end)
    (Bing.blocks env) = true ->
  exists serp, Bing.search_bing to_lowercase env = Ok serp
    /\ length (results serp) = length (Bing.blocks env).
Proof.
  intros Hl Hh Hc H2 Hb. eexists. split.
  - exact (search_bing_ok to_lowercase env h1 h2 Hl Hh Hc H2).
  - simpl. apply extract_length, Hb.
Qed.

(** The first HTML read is ASCII, so [str::to_lowercase] lowercases it as
    [Str.to_ascii_lowercase] does ([Str.lowercase_spec]). *)
Lemma search_bing_no_cap_witness :
  Str.is_ascii "<html>results</html>" = true
  /\ exists serp,
    Bing.search_bing Str.to_ascii_lowercase
      {| Bing.launch := Ok tt; Bing.html1 := Ok "<html>results</html>";
         Bing.html2 := Ok "<html>results</html>";
         Bing.blocks := repeat {| Bing.anchor := Some ("Example", Some "https://example.com/");
                                  Bing.para := None |} 11;
         Bing.related := []; Bing.count := None |} = Ok serp
    /\ length (results serp) = 11%nat.
Proof.
  split; [reflexivity|].
  match goal with
  | |- exists serp, Bing.search_bing _ ?e = _ /\ _ =>
      apply (search_bing_no_cap Str.to_ascii_lowercase e "<html>results</html>"
               "<html>results</html>");
      vm_compute; reflexivity
  end.
Defined.

Lemma search_google_all_empty attempt :
  (forall n, exists d, attempt n = Ok d /\ results d = []) ->
  Google.search_google attempt
  = ([Google.Attempt 1; Google.Sleep 5; Google.Attempt 2; Google.Sleep 10; Google.Attempt 3],
     Err "Google search failed after 3 attempts. Last error: No results found").
Proof.
  intros H.
  destruct (H 1%nat) as [d1 [H1 E1]], (H 2%nat) as [d2 [H2 E2]], (H 3%nat) as [d3 [H3 E3]].
  unfold Google.search_google. simpl.
  rewrite H1, E1, H2, E2, H3, E3. reflexivity.
Qed.

(** C2 (counterexample): three zero-result Google attempts end in an
    error, not in a zero-result outcome value. *)
Lemma search_outcome_counterexample :
  snd (Google.search_google (fun _ => Ok {| results := []; people_also_ask := [];
          related_searches := []; featured_snippet := None; total_results := None |}))
  = Err "Google search failed after 3 attempts. Last error: No results found".
Proof. vm_compute. reflexivity. Qed.

(** C2 (amended): there is no distinct challenge or zero-result outcome
    value.  [search_bing] returns [Err "Bing Challenge Detected"] when the
    HTML read after the settle wait matches a challenge phrase, and [Ok]
    with an empty result list for a page with no extractable result;
    [search_google] turns three zero-result attempts into an [Err].  The
    worker's [process_job] branches only on [Ok] versus [Err]: any [Err],
    whatever its message, fails the job with nothing written, and an [Ok]
    with no result completes the job (when the row is accepted). *)
Theorem search_outcomes_ok_or_err :
  (forall lc env h1, Bing.launch env = Ok tt -> Bing.html1 env = Ok h1 ->
     is_challenge lc Bing.challenge_patterns h1 = true ->
     Bing.search_bing lc env = Err "Bing Challenge Detected")
  /\ (forall lc env h1 h2, Bing.launch env = Ok tt -> Bing.html1 env = Ok h1 ->
     is_challenge lc Bing.challenge_patterns h1 = false -> Bing.html2 env = Ok h2 ->
     Bing.extract (Bing.blocks env) = [] ->
     exists serp, Bing.search_bing lc env = Ok serp /\ results serp = [])
  /\ (forall attempt, (forall n, exists d, attempt n = Ok d /\ results d = []) ->
     snd (Google.search_google attempt)
     = Err "Google search failed after 3 attempts. Last error: No results found")
  /\ (forall V (svc : Services) (st : WState V) job e,
     search_step svc job = Err e -> process_job svc st job = (Err e, st))
  /\ (forall V (svc : Services) (st : WState V) job serp,
     search_step svc job = Ok serp -> results serp = [] ->
     (forall row, svc_insert_ok svc (w_tasks st) row = true) ->
     exists st', process_job svc st job = (Ok tt, st')).
Proof.
  split; [|split; [|split; [|split]]].
  - exact search_bing_challenge.
  - intros lc env h1 h2 Hl Hh Hc H2 He. eexists. split.
    + exact (search_bing_ok lc env h1 h2 Hl Hh Hc H2).
    + exact He.
  - intros attempt H. rewrite (search_google_all_empty attempt H). reflexivity.
  - intros V svc st job e Hs. unfold process_job. rewrite Hs. reflexivity.
  - intros V svc st job serp Hs Hr Hins. unfold process_job. rewrite Hs, Hr.
    cbn zeta iota. rewrite Hins. eexists. reflexivity.
Qed.

Lemma search_outcomes_ok_or_err_witness :
  Bing.search_bing Str.to_ascii_lowercase
    {| Bing.launch := Ok tt; Bing.html1 := Ok "<p>hCaptcha</p>";
       Bing.html2 := Ok ""; Bing.blocks := []; Bing.related := []; Bing.count := None |}
  = Err "Bing Challenge Detected"
  /\ (exists serp, Bing.search_bing Str.to_ascii_lowercase
        {| Bing.launch := Ok tt; Bing.html1 := Ok "<p>ok</p>";
           Bing.html2 := Ok "<p>ok</p>"; Bing.blocks := []; Bing.related := [];
           Bing.count := None |} = Ok serp /\ results serp = [])
  /\ snd (Google.search_google (fun _ => Ok {| results := []; people_also_ask := [];
            related_searches := []; featured_snippet := None; total_results := None |}))
     = Err "Google search failed after 3 attempts. Last error: No results found"
  /\ process_job
       {| svc_search_google := fun _ => Err "unused"; svc_generic_crawl := fun _ _ => Err "unused";
          svc_search_bing := fun _ => Err "Bing Challenge Detected";
          svc_extract_website_data := fun _ => Err "unused"; svc_to_json := fun _ => "{}";
          svc_store_ok := fun _ _ => true; svc_insert_ok := fun _ _ => true |}
       {| w_queue := ([] : list string); w_tasks := []; w_blobs := []; w_log := [] |}
       {| id := "job-1"; keyword := "rust"; engine := "bing"; selectors := None |}
     = (Err "Bing Challenge Detected",
        {| w_queue := []; w_tasks := []; w_blobs := []; w_log := [] |})
  /\ exists st', process_job
       {| svc_search_google := fun _ => Err "unused"; svc_generic_crawl := fun _ _ => Err "unused";
          svc_search_bing := fun _ => Ok {| results := []; people_also_ask := [];
                                            related_searches := []; featured_snippet := None;
                                            total_results := None |};
          svc_extract_website_data := fun _ => Err "unused"; svc_to_json := fun _ => "{}";
          svc_store_ok := fun _ _ => true; svc_insert_ok := fun _ _ => true |}
       {| w_queue := ([] : list string); w_tasks := []; w_blobs := []; w_log := [] |}
       {| id := "job-1"; keyword := "rust"; engine := "bing"; selectors := None |}
     = (Ok tt, st').
Proof.
  destruct search_outcomes_ok_or_err as [Hb [Hz [Hg [He Ho]]]].
  split; [|split; [|split; [|split]]].
  - apply (Hb _ _ "<p>hCaptcha</p>"); vm_compute; reflexivity.
  - apply (Hz _ _ "<p>ok</p>" "<p>ok</p>"); vm_compute; reflexivity.
  - apply Hg. intros n. eexists. split; reflexivity.
  - apply He. reflexivity.
  - eapply Ho; [reflexivity | reflexivity | intros row; reflexivity].
Defined.

(** At most 3 attempts, whatever each attempt returns. *)
Lemma google_loop_attempts attempt n k e :
  (length (List.filter (fun ev => match ev with Google.Attempt _ => true | _ => false end)
     (fst (Google.google_loop attempt n k e))) <= k)%nat.
Proof.
  revert n e. induction k as [|k IH]; intros n e; simpl; [lia|].
  destruct (attempt n) as [d|e'].
  - destruct (results d).
    + specialize (IH (S n) e). destruct (Google.google_loop attempt (S n) k e) as [tr r].
      destruct (n <? 3)%nat; simpl in *; lia.
    + simpl; lia.
  - specialize (IH (S n) e'). destruct (Google.google_loop attempt (S n) k e') as [tr r].
    destruct (n <? 3)%nat; simpl in *; lia.
Qed.

(** C3 (code_bug): when the first two attempts fail with an error,
    [search_google] waits a constant 5 s before each retry; the
    [5 * attempt] backoff is used only after a zero-result attempt. *)
Theorem search_google_error_backoff_constant (attempt : nat -> result SerpData)
    (e1 e2 : string) (d : SerpData) :
  attempt 1%nat = Err e1 -> attempt 2%nat = Err e2 -> attempt 3%nat = Ok d ->
  results d <> [] ->
  Google.search_google attempt
  = ([Google.Attempt 1; Google.Sleep 5; Google.Attempt 2; Google.Sleep 5; Google.Attempt 3],
     Ok d).
Proof.
  intros H1 H2 H3 Hd. unfold Google.search_google. simpl.
  rewrite H1, H2, H3. destruct (results d) eqn:E; [contradiction|reflexivity].
Qed.

Lemma search_google_error_backoff_constant_witness :
  Google.search_google
    (fun n => if (n <? 3)%nat then Err "Navigation failed"
              else Ok {| results := [{| title := "Example"; link := "https://example.com/";
                                         snippet := "" |}];
                         people_also_ask := []; related_searches := [];
                         featured_snippet := None; total_results := None |})
  = ([Google.Attempt 1; Google.Sleep 5; Google.Attempt 2; Google.Sleep 5; Google.Attempt 3],
     Ok {| results := [{| title := "Example"; link := "https://example.com/"; snippet := "" |}];
           people_also_ask := []; related_searches := [];
           featured_snippet := None; total_results := None |}).
Proof.
  apply (search_google_error_backoff_constant _ "Navigation failed" "Navigation failed");
    [reflexivity | reflexivity | reflexivity | discriminate].
Defined.

(** C4 (counterexample): a Google attempt whose rendered HTML contains
    "Unusual Traffic" returns [Ok] with its extracted result. *)
Lemma unusual_traffic_counterexample :
  Str.is_ascii "<p>Our systems have detected Unusual Traffic</p>" = true
  /\ Str.contains (Str.to_ascii_lowercase "<p>Our systems have detected Unusual Traffic</p>")
       "unusual traffic" = true
  /\ Google.search_google_attempt
    {| Google.launch := Ok tt;
       Google.dom_eval := Ok (Some {| Google.has_main := true;
          Google.result_blocks := [{| Google.heading := Some "Example";
                                      Google.anchor_href := Some "https://example.com/";
                                      Google.snippet_text := None |}];
          Google.has_main_h3 := true; Google.has_script_blob := false |});
       Google.js_eval := Ok None;
       Google.html := Ok "<p>Our systems have detected Unusual Traffic</p>";
       Google.paa := []; Google.related := []; Google.count := None;
       Google.featured := None |}
    = Ok {| results := [{| title := "Example"; link := "https://example.com/"; snippet := "" |}];
            people_also_ask := []; related_searches := [];
            featured_snippet := None; total_results := None |}.
Proof. split; [|split]; vm_compute; reflexivity. Qed.

(** C4 (amended): only [search_bing] classifies a page on this phrase: when
    the HTML read after the settle wait contains "unusual traffic" (after
    [str::to_lowercase]) it returns [Err "Bing Challenge Detected"], whatever
    results the page holds.  When the phrase appears only in the later HTML
    read, [search_bing] returns [Ok] with all its extracted results, and the
    phrase only makes the reason of the zero-result log line
    "challenge_detected".  [search_google_attempt] and [generic_crawl]
    perform no such check: once the browser steps and the HTML read succeed
    they return [Ok] with their extracted results, whatever the HTML text. *)
Theorem unusual_traffic_bing_only :
  (forall lc, Str.lowercase_spec lc ->
     forall env h1, Bing.launch env = Ok tt -> Bing.html1 env = Ok h1 ->
     Str.contains (lc h1) "unusual traffic" = true ->
     Bing.search_bing lc env = Err "Bing Challenge Detected")
  /\ (forall lc, Str.lowercase_spec lc ->
     forall env h1 h2, Bing.launch env = Ok tt -> Bing.html1 env = Ok h1 ->
     is_challenge lc Bing.challenge_patterns h1 = false -> Bing.html2 env = Ok h2 ->
     Str.contains (lc h2) "unusual traffic" = true ->
     Bing.search_bing_run lc env
     = (match Bing.extract (Bing.blocks env) with
        | [] => Some "challenge_detected"
        | _ :: _ => None
        end,
        Ok {| results := Bing.extract (Bing.blocks env); people_also_ask := [];
              related_searches := Bing.related env; featured_snippet := None;
              total_results := Bing.count env |}))
  /\ (forall env h, Google.launch env = Ok tt -> Google.html env = Ok h ->
     exists serp, Google.search_google_attempt env = Ok serp
       /\ results serp = Google.extracted env)
  /\ (forall env url sel h, Generic.launch env = Ok tt -> Generic.html env = Ok h ->
     exists serp, Generic.generic_crawl env url sel = Ok serp
       /\ length (results serp) = 1%nat).
Proof.
  split; [|split; [|split]].
  - intros lc Hlc env h1 Hl Hh Hc.
    exact (search_bing_challenge lc env h1 Hl Hh (is_challenge_unusual_traffic lc Hlc h1 Hc)).
  - intros lc Hlc env h1 h2 Hl Hh Hc H2 Hu.
    rewrite (search_bing_run_ok lc env h1 h2 Hl Hh Hc H2).
    rewrite (failure_reason_unusual_traffic lc Hlc h2 Hu). reflexivity.
  - intros env h Hl Hh. unfold Google.search_google_attempt. rewrite Hl, Hh.
    eexists. split; reflexivity.
  - intros env url sel h Hl Hh. unfold Generic.generic_crawl. rewrite Hl, Hh.
    eexists. split; reflexivity.
Qed.

Lemma unusual_traffic_bing_only_witness :
  Bing.search_bing Str.to_ascii_lowercase
    {| Bing.launch := Ok tt; Bing.html1 := Ok "<p>Unusual Traffic</p>";
       Bing.html2 := Ok "";
       Bing.blocks := [{| Bing.anchor := Some ("Example", Some "https://example.com/");
                          Bing.para := None |}];
       Bing.related := []; Bing.count := None |}
  = Err "Bing Challenge Detected"
  /\ Bing.search_bing_run Str.to_ascii_lowercase
    {| Bing.launch := Ok tt; Bing.html1 := Ok "<p>loading</p>";
       Bing.html2 := Ok "<p>Our systems have detected Unusual Traffic</p>";
       Bing.blocks := []; Bing.related := []; Bing.count := None |}
  = (Some "challenge_detected",
     Ok {| results := []; people_also_ask := []; related_searches := [];
           featured_snippet := None; total_results := None |})
  /\ (exists serp, Google.search_google_attempt
        {| Google.launch := Ok tt; Google.dom_eval := Ok None; Google.js_eval := Ok None;
           Google.html := Ok "<p>Unusual Traffic</p>"; Google.paa := [];
           Google.related := []; Google.count := None; Google.featured := None |} = Ok serp
      /\ results serp = [])
  /\ (exists serp, Generic.generic_crawl
        {| Generic.launch := Ok tt; Generic.html := Ok "<p>Unusual Traffic</p>";
           Generic.select := fun _ => None; Generic.page_title := None |}
        "https://forum.example.com/" None = Ok serp
      /\ length (results serp) = 1%nat).
Proof.
  destruct unusual_traffic_bing_only as [Hb [Hl [Hg Hn]]].
  split; [|split; [|split]].
  - apply (Hb Str.to_ascii_lowercase (fun s _ => eq_refl) _ "<p>Unusual Traffic</p>");
      vm_compute; reflexivity.
  - match goal with
    | |- Bing.search_bing_run _ ?e = _ =>
        apply (Hl Str.to_ascii_lowercase (fun s _ => eq_refl) e "<p>loading</p>"
                 "<p>Our systems have detected Unusual Traffic</p>"); vm_compute; reflexivity
    end.
  - match goal with
    | |- exists serp, Google.search_google_attempt ?e = _ /\ _ =>
        apply (Hg e "<p>Unusual Traffic</p>"); reflexivity
    end.
  - apply (Hn _ _ _ "<p>Unusual Traffic</p>"); reflexivity.
Defined.

(** ** Worker and queue *)

(** [process_job] adds a row to [tasks] only when it returns [Ok]. *)
Lemma process_job_tasks {V} (svc : Services) (st : WState V) (job : CrawlJob) :
  match process_job svc st job with
  | (Err _, st') => w_tasks st' = w_tasks st
  | (Ok _, st') => exists row, w_tasks st' = row :: w_tasks st /\ t_status row = "completed"
  end.
Proof.
  unfold process_job.
  destruct (search_step svc job) as [serp|e]; [|reflexivity].
  set (fr := match results serp with
             | r :: _ => match svc_extract_website_data svc (link r) with
                         | Ok d => Some d | Err _ => None end
             | [] => None end).
  assert (Hst : forall st1 : WState V, w_tasks st1 = w_tasks st ->
    match (let row := match fr with
                      | Some d => {| t_id := id job; t_keyword := keyword job; t_engine := engine job;
                                     t_status := "completed"; t_results_json := svc_to_json svc serp;
                                     t_extracted_text := x_main_text d; t_first_page_html := x_html d;
                                     t_meta_description := x_meta_description d;
                                     t_meta_author := x_meta_author d; t_meta_date := x_meta_date d |}
                      | None => {| t_id := id job; t_keyword := keyword job; t_engine := engine job;
                                   t_status := "completed"; t_results_json := svc_to_json svc serp;
                                   t_extracted_text := ""; t_first_page_html := "";
                                   t_meta_description := None; t_meta_author := None;
                                   t_meta_date := None |}
                      end in
           if svc_insert_ok svc (w_tasks st1) row then
             (Ok tt, {| w_queue := w_queue st1; w_tasks := row :: w_tasks st1;
                        w_blobs := w_blobs st1;
                        w_log := ("[Worker] Job " ++ id job ++ " completed successfully!") :: w_log st1 |})
           else (Err "database error", st1)) with
    | (Err _, st') => w_tasks st' = w_tasks st
    | (Ok _, st') => exists row, w_tasks st' = row :: w_tasks st /\ t_status row = "completed"
    end).
  { intros st1 E. cbv zeta.
    destruct (svc_insert_ok svc _ _); [|exact E].
    eexists. rewrite E. split; [reflexivity|]. destruct fr; reflexivity. }
  apply Hst.
  destruct fr as [d|]; [|reflexivity].
  destruct (negb (String.eqb (x_html d) "")); [|reflexivity].
  destruct (svc_store_ok svc _ _); reflexivity.
Qed.

(** C5: when the popped job's search step fails, one worker iteration
    leaves [tasks] and the stored objects unchanged, does not put the job
    back on the queue, and logs the failure; more generally [process_job]
    writes a task row only on completion. *)
Theorem worker_failed_search_drops_job {V} (decode : V -> result CrawlJob)
    (svc : Services) (st : WState V) (job : CrawlJob) (q' : list V) (e : string) :
  pop_job decode (w_queue st) = (Ok (Some job), q') ->
  search_step svc job = Err e ->
  worker_step decode svc st
  = {| w_queue := q'; w_tasks := w_tasks st; w_blobs := w_blobs st;
       w_log := ("[Worker] Job failed: " ++ e) :: w_log st |}
  /\ (forall st0 : WState V, match process_job svc st0 job with
       | (Err _, st') => w_tasks st' = w_tasks st0
       | (Ok _, st') => exists row, w_tasks st' = row :: w_tasks st0
                                    /\ t_status row = "completed"
       end).
Proof.
  intros Hp Hs. split.
  - unfold worker_step. rewrite Hp. unfold process_job. rewrite Hs. reflexivity.
  - intros st0. apply process_job_tasks.
Qed.

Lemma worker_failed_search_drops_job_witness :
  let job := {| id := "job-1"; keyword := "rust"; engine := "bing"; selectors := None |} in
  let svc := {| svc_search_google := fun _ => Err "unused";
                svc_generic_crawl := fun _ _ => Err "unused";
                svc_search_bing := fun _ => Err "Bing Challenge Detected";
                svc_extract_website_data := fun _ => Err "unused";
                svc_to_json := fun _ => "";
                svc_store_ok := fun _ _ => true;
                svc_insert_ok := fun _ _ => true |} in
  worker_step Ok svc {| w_queue := [job]; w_tasks := []; w_blobs := []; w_log := [] |}
  = {| w_queue := []; w_tasks := []; w_blobs := [];
       w_log := ["[Worker] Job failed: Bing Challenge Detected"] |}.
Proof.
  intros job svc.
  apply (worker_failed_search_drops_job Ok svc
           {| w_queue := [job]; w_tasks := []; w_blobs := []; w_log := [] |} job []
           "Bing Challenge Detected"); reflexivity.
Defined.

Lemma rpop_snoc {V} (l : list V) (x : V) : Redis.rpop (l ++ [x]) = (Some x, l).
Proof.
  induction l as [|y l IH]; [reflexivity|].
  simpl. rewrite IH. reflexivity.
Qed.

Lemma rpop_cons_nonempty {V} (x : V) (q : list V) :
  q <> [] -> Redis.rpop (x :: q) = (fst (Redis.rpop q), x :: snd (Redis.rpop q)).
Proof.
  intros Hq. destruct q as [|y q]; [contradiction|].
  destruct (@exists_last _ (y :: q) Hq) as [l [z E]]. rewrite E, rpop_snoc.
  simpl. rewrite rpop_snoc. reflexivity.
Qed.

Lemma push_all_rev {V} (encode : CrawlJob -> V) jobs (q : list V) :
  push_all encode jobs q = (rev (map encode jobs) ++ q)%list.
Proof.
  revert q. induction jobs as [|j js IH]; intros q; [reflexivity|].
  simpl. unfold push_all in *. simpl. rewrite IH.
  rewrite <- app_assoc. reflexivity.
Qed.

(** C6: the Redis-backed queue is FIFO, for any codec that round-trips
    ([serde_json::from_str] after [serde_json::to_string] gives the job
    back): pop on an empty queue gives no job; after pushing a job on an
    empty queue a pop gives exactly that job and a second pop gives no job;
    a push does not change which job the next pop returns; and popping
    after a sequence of pushes returns the jobs in push order. *)
Theorem queue_fifo {V} (encode : CrawlJob -> V) (decode : V -> result CrawlJob)
    (Hrt : forall j, decode (encode j) = Ok j) :
  pop_job decode [] = (Ok None, [])
  /\ (forall j, pop_job decode (push_job encode j []) = (Ok (Some j), [])
                /\ pop_job decode (snd (pop_job decode (push_job encode j []))) = (Ok None, []))
  /\ (forall j q, q <> [] ->
        pop_job decode (push_job encode j q)
        = (fst (pop_job decode q), encode j :: snd (pop_job decode q)))
  /\ (forall jobs, drain decode (length jobs) (push_all encode jobs []) = jobs).
Proof.
  split; [reflexivity|split; [|split]].
  - intros j. unfold pop_job, push_job, Redis.lpush. simpl. rewrite Hrt. split; reflexivity.
  - intros j q Hq. unfold pop_job, push_job, Redis.lpush.
    rewrite (rpop_cons_nonempty _ _ Hq).
    destruct (Redis.rpop q) as [[v|] q'']; simpl; [|reflexivity].
    destruct (decode v); reflexivity.
  - intros jobs. rewrite push_all_rev, app_nil_r.
    induction jobs as [|j js IH]; [reflexivity|].
    simpl length. simpl map. simpl rev. simpl drain.
    unfold pop_job. rewrite rpop_snoc, Hrt. rewrite IH. reflexivity.
Qed.

Lemma queue_fifo_witness :
  let j := {| id := "job-1"; keyword := "rust"; engine := "google"; selectors := None |} in
  pop_job (fun x : CrawlJob => Ok x) (push_job (fun x => x) j []) = (Ok (Some j), []).
Proof.
  intros j.
  destruct (queue_fifo (fun x : CrawlJob => x) (fun x => Ok x) (fun x => eq_refl))
    as [_ [H _]].
  apply H.
Defined.

(** ** Outbound links *)

Lemma In_firstn {A} n (l : list A) x : In x (firstn n l) -> In x l.
Proof.
  intros H. rewrite <- (firstn_skipn n l). apply in_or_app. left. exact H.
Qed.

Lemma NoDup_firstn {A} n (l : list A) : NoDup l -> NoDup (firstn n l).
Proof.
  intros H. rewrite <- (firstn_skipn n l) in H.
  exact (NoDup_app_remove_r _ _ H).
Qed.

(** C9 (code_bug): the filter of [extract_outbound_links] keeps any href
    that starts with "http" and does not contain [base_domain] byte for
    byte, so a link that is not an absolute http(s) URL (the relative
    "httpdocs/index.html") or that names the page's own host in other letter
    case ("https://EXAMPLE.com/page" on "example.com") is returned as an
    outbound link. *)
Theorem extract_outbound_links_keeps_http_prefix (hash_order : list string -> list string)
    (Hperm : forall l, Permutation (hash_order l) l) (h base_domain : string) :
  Str.starts_with "http" h = true -> Str.contains h base_domain = false ->
  extract_outbound_links hash_order [h] base_domain = [h].
Proof.
  intros Hs Hc. unfold extract_outbound_links. cbn [List.filter].
  rewrite Hs, Hc. cbn.
  pose proof (Hperm [h]) as Hp.
  apply Permutation_sym, Permutation_length_1_inv in Hp. rewrite Hp. reflexivity.
Qed.

Lemma extract_outbound_links_keeps_http_prefix_witness :
  Str.starts_with "http://" "httpdocs/index.html" = false
  /\ Str.starts_with "https://" "httpdocs/index.html" = false
  /\ extract_outbound_links (fun l => l) ["httpdocs/index.html"] "example.com"
     = ["httpdocs/index.html"]
  /\ extract_outbound_links (fun l => l) ["https://EXAMPLE.com/page"] "example.com"
     = ["https://EXAMPLE.com/page"].
Proof.
  split; [reflexivity|split; [reflexivity|split]].
  - apply (extract_outbound_links_keeps_http_prefix (fun l => l) (fun l => Permutation_refl l));
      reflexivity.
  - apply (extract_outbound_links_keeps_http_prefix (fun l => l) (fun l => Permutation_refl l));
      reflexivity.
Defined.

(** For any [HashSet] iteration order, every element of the result of
    [extract_outbound_links] is an [href] of the document that starts with
    "http" and does not contain [base_domain] as a substring; the list has no
    duplicates and at most 50 elements. *)
Theorem extract_outbound_links_spec (hash_order : list string -> list string)
    (Hperm : forall l, Permutation (hash_order l) l)
    (hrefs : list string) (base_domain : string) :
  (forall h, In h (extract_outbound_links hash_order hrefs base_domain) ->
     In h hrefs /\ Str.starts_with "http" h = true /\ Str.contains h base_domain = false)
  /\ NoDup (extract_outbound_links hash_order hrefs base_domain)
  /\ (length (extract_outbound_links hash_order hrefs base_domain) <= 50)%nat.
Proof.
  unfold extract_outbound_links. split; [|split].
  - intros h Hin. apply In_firstn in Hin.
    apply (Permutation_in _ (Hperm _)), nodup_In, filter_In in Hin.
    destruct Hin as [Hin Hf]. apply andb_prop in Hf. destruct Hf as [Hs Hc].
    apply negb_true_iff in Hc. tauto.
  - apply NoDup_firstn. eapply Permutation_NoDup; [symmetry; apply Hperm|].
    apply NoDup_nodup.
  - rewrite length_firstn. lia.
Qed.

Lemma extract_outbound_links_spec_witness :
  NoDup (extract_outbound_links (fun l => l)
           ["https://other.org/a"; "/about"; "https://other.org/a"; "https://example.com/b"]
           "example.com").
Proof.
  destruct (extract_outbound_links_spec (fun l => l) (fun l => Permutation_refl l)
              ["https://other.org/a"; "/about"; "https://other.org/a"; "https://example.com/b"]
              "example.com") as [_ [H _]].
  exact H.
Defined.

(* ================================================================== *)
(** * Further properties of the crawler *)

(** ** [base64_decode]: output length *)

Lemma slength_list s : String.length s = length (list_ascii_of_string s).
Proof. induction s as [|c s IH]; simpl; congruence. Qed.

Lemma step_count buf k out c :
  0 <= k < 8 -> Forall (fun b => 0 <= b < 256) out ->
  match B64.step (buf, k, out) c with
  | (_, k', out') =>
      0 <= k' < 8
      /\ 8 * Z.of_nat (length out') + k'
         = 8 * Z.of_nat (length out) + k + (if B64.decode_map_get c then 6 else 0)
      /\ Forall (fun b => 0 <= b < 256) out'
  end.
Proof.
  intros Hk Ho. unfold B64.step. destruct (B64.decode_map_get c) as [v|].
  - cbv zeta. destruct (Z.leb_spec 8 (k + 6)).
    + cbn [length]. split; [lia|split; [lia|]].
      constructor; [apply Z.mod_pos_bound; lia | exact Ho].
    + split; [lia|split; [lia|exact Ho]].
  - split; [lia|split; [lia|exact Ho]].
Qed.

Lemma run_count l : forall buf k out,
  0 <= k < 8 -> Forall (fun b => 0 <= b < 256) out ->
  match B64.run l (buf, k, out) with
  | (_, k', out') =>
      0 <= k' < 8
      /\ 8 * Z.of_nat (length out') + k'
         = 8 * Z.of_nat (length out) + k
           + 6 * Z.of_nat (length (List.filter (fun c => if B64.decode_map_get c then true else false) l))
      /\ Forall (fun b => 0 <= b < 256) out'
  end.
Proof.
  induction l as [|c l IH]; intros buf k out Hk Ho.
  - cbn. split; [lia|split; [lia|exact Ho]].
  - unfold B64.run. cbn [fold_left]. fold (B64.run l (B64.step (buf, k, out) c)).
    pose proof (step_count buf k out c Hk Ho) as Hs.
    destruct (B64.step (buf, k, out) c) as [[buf1 k1] out1].
    destruct Hs as [Hk1 [Heq Ho1]].
    specialize (IH buf1 k1 out1 Hk1 Ho1).
    destruct (B64.run l (buf1, k1, out1)) as [[buf2 k2] out2].
    destruct IH as [Hk2 [Heq2 Ho2]].
    split; [exact Hk2|split; [|exact Ho2]].
    cbn [List.filter]. destruct (B64.decode_map_get c); cbn [length]; lia.
Qed.

(** [base64_decode s] returns [6 n / 8] bytes (rounded down), where [n] is
    the number of characters of [s] in the base64 alphabet; every element is
    a byte. *)
Theorem base64_decode_length (s : string) (out : list Z) :
  B64.base64_decode s = Ok out ->
  Z.of_nat (length out) = 6 * Z.of_nat (String.length (keep_alphabet s)) / 8
  /\ Forall (fun b => 0 <= b < 256) out.
Proof.
  rewrite B64Facts.base64_decode_run.
  pose proof (run_count (list_ascii_of_string s) 0 0 [] ltac:(lia) (Forall_nil _)) as H.
  destruct (B64.run _ _) as [[buf k] o].
  intros E. injection E as <-. destruct H as [Hk [Heq Ho]].
  unfold keep_alphabet. rewrite slength_list, list_ascii_of_string_of_list_ascii.
  rewrite length_rev. split; [|apply Forall_rev, Ho].
  cbn [length] in Heq. B64Facts.zsolve.
Qed.

Lemma base64_decode_length_witness :
  Z.of_nat (length [105; 108; 100; 121]) = 6 * Z.of_nat (String.length (keep_alphabet "aWxkeQ==")) / 8
  /\ Forall (fun b => 0 <= b < 256) [105; 108; 100; 121].
Proof. apply (base64_decode_length "aWxkeQ=="). vm_compute. reflexivity. Defined.

(** ** [decode_search_url]: Google wrapper URLs *)

Lemma hex_table :
  forallb (fun n => match hex_val (PctEnc.hex_digit (Z.of_nat n)) with
                    | Some w => w =? Z.of_nat n
                    | None => false
                    end) (seq 0 16) = true.
Proof. vm_compute. reflexivity. Qed.

Lemma hex_val_digit v : 0 <= v < 16 -> hex_val (PctEnc.hex_digit v) = Some v.
Proof.
  intros Hv.
  pose proof (proj1 (forallb_forall _ _) hex_table (Z.to_nat v)) as H.
  assert (Hin : In (Z.to_nat v) (seq 0 16)) by (apply in_seq; lia).
  specialize (H Hin). cbv beta in H. rewrite Z2Nat.id in H by lia.
  destruct (hex_val (PctEnc.hex_digit v)) as [w|]; [|discriminate].
  apply Z.eqb_eq in H. congruence.
Qed.

Lemma percent_decode_encode bs :
  Forall (fun b => 0 <= b < 256) bs -> percent_decode (PctEnc.encode bs) = bs.
Proof.
  induction bs as [|b bs IH]; intros H; [reflexivity|].
  apply Forall_cons_iff in H as [Hb Hbs].
  change (PctEnc.encode (b :: bs))
    with ("%"%char :: PctEnc.hex_digit (b / 16) :: PctEnc.hex_digit (b mod 16)
          :: PctEnc.encode bs).
  cbn [percent_decode Ascii.eqb Bool.eqb].
  rewrite (hex_val_digit (b / 16)) by B64Facts.zsolve.
  rewrite (hex_val_digit (b mod 16)) by B64Facts.zsolve.
  rewrite (IH Hbs). f_equal. B64Facts.zsolve.
Qed.

Lemma hex_digit_not_amp v : PctEnc.hex_digit v <> "&"%char.
Proof.
  unfold PctEnc.hex_digit.
  destruct (nth_in_or_default (Z.to_nat v) PctEnc.hex_digits "0"%char) as [Hin| ->];
    [|discriminate].
  intros E. rewrite E in Hin. vm_compute in Hin. intuition discriminate.
Qed.

Lemma pct_encode_no_amp d : StrFacts.no_amp (PctEnc.pct_encode d) = true.
Proof.
  apply B64Facts.no_amp_of_list. unfold PctEnc.encode.
  apply Forall_forall. intros c Hc. apply in_flat_map in Hc as [b [_ Hc]].
  destruct Hc as [<-|[<-|[<-|[]]]]; [discriminate|apply hex_digit_not_amp ..].
Qed.

Lemma url_decode_pct_encode d :
  utf8_valid (bytes d) = true -> url_decode (PctEnc.pct_encode d) = Ok d.
Proof.
  intros Hu. unfold url_decode, PctEnc.pct_encode.
  destruct (bytes d) as [|b bs] eqn:Eb.
  - cbn. rewrite <- (B64Facts.string_of_bytes_bytes d), Eb. reflexivity.
  - change (PctEnc.encode (b :: bs))
      with ("%"%char :: PctEnc.hex_digit (b / 16) :: PctEnc.hex_digit (b mod 16)
            :: PctEnc.encode bs).
    replace (Str.contains _ "%") with true by reflexivity.
    rewrite list_ascii_of_string_of_list_ascii.
    change ("%"%char :: PctEnc.hex_digit (b / 16) :: PctEnc.hex_digit (b mod 16)
            :: PctEnc.encode bs) with (PctEnc.encode (b :: bs)).
    rewrite percent_decode_encode by (rewrite <- Eb; apply B64Facts.bytes_range).
    rewrite <- Eb. apply B64Facts.from_utf8_bytes. rewrite Eb. exact Hu.
Qed.

Lemma split_first_amp_url s :
  Str.split_first (Str.split_first s "&url=") "&" = Str.split_first s "&".
Proof.
  induction s as [|c s IH]; [reflexivity|].
  destruct (Ascii.eqb_spec "&" c) as [<-|Hc].
  - rewrite (StrFacts.split_first_prefix "&" (String "&" s) s eq_refl).
    destruct (StrFacts.split_first_head "&url=" "&" s) as [->|[b ->]]; reflexivity.
  - assert (Hc' : c <> "&"%char) by congruence.
    pose proof (StrFacts.strip_prefix_amp_other "url=" c s Hc') as E1.
    pose proof (fun w => StrFacts.strip_prefix_amp_other "" c w Hc') as E2.
    rewrite (StrFacts.split_first_cons _ _ _ E1), !(StrFacts.split_first_cons _ _ _ (E2 _)).
    now rewrite IH.
Qed.

Lemma decode_bing_none url :
  Str.contains url "bing.com/ck/a" = false -> decode_bing url = None.
Proof. intros H. unfold decode_bing. rewrite H. reflexivity. Qed.

(** On a Google wrapper URL [pre ++ "&url=" ++ pct(d) ++ post] (the first
    ["&url="] being the wrapper's, [post] empty or starting a new parameter,
    no Bing marker in the URL), [decode_search_url] returns exactly [d], for
    every destination string [d] (valid UTF-8). *)
Theorem decode_search_url_google_roundtrip (pre d post : string) :
  Str.contains (google_wrapper pre d post) "bing.com/ck/a" = false ->
  Str.contains pre "google.com/url" = true ->
  Str.find_split "&url=" (pre ++ "&url=") = Some (pre, "") ->
  post = "" \/ Str.starts_with "&" post = true ->
  utf8_valid (bytes d) = true ->
  decode_search_url (google_wrapper pre d post) = d.
Proof.
  intros Hb Hc Hf Hp Hu.
  unfold decode_search_url. rewrite (decode_bing_none _ Hb).
  set (enc := PctEnc.pct_encode d).
  assert (Hurl : google_wrapper pre d post = (pre ++ "&url=") ++ (enc ++ post)).
  { unfold google_wrapper. rewrite <- StrFacts.sapp_assoc. reflexivity. }
  rewrite Hurl.
  rewrite (StrFacts.contains_app_l _ _ _ (StrFacts.contains_app_l _ _ _ Hc)).
  unfold google_param, Str.split_nth1. rewrite (StrFacts.find_split_app _ _ _ _ _ Hf).
  rewrite sapp_nil_l, split_first_amp_url.
  rewrite (StrFacts.split_first_no_amp enc post (pct_encode_no_amp d) Hp).
  unfold enc. rewrite (url_decode_pct_encode d Hu). reflexivity.
Qed.

Lemma decode_search_url_google_roundtrip_witness :
  decode_search_url
    (google_wrapper "https://www.google.com/url?sa=t" "https://example.com/a b" "&ved=2")
  = "https://example.com/a b".
Proof.
  apply decode_search_url_google_roundtrip;
    [vm_compute; reflexivity | vm_compute; reflexivity | vm_compute; reflexivity
    | right; vm_compute; reflexivity | vm_compute; reflexivity].
Defined.

Lemma split_first_none s p : Str.find_split p s = None -> Str.split_first s p = s.
Proof. intros H. unfold Str.split_first. rewrite H. reflexivity. Qed.

(** When the [url] parameter of a Google wrapper URL holds a ['%'] and its
    percent-decoding is not valid UTF-8, [decode_search_url] returns the
    whole rest of the URL after ["&url="], the later parameters included. *)
Theorem decode_search_url_google_fallback (pre p post : string) :
  Str.contains (pre ++ "&url=" ++ p ++ post) "bing.com/ck/a" = false ->
  Str.contains pre "google.com/url" = true ->
  Str.find_split "&url=" (pre ++ "&url=") = Some (pre, "") ->
  StrFacts.no_amp p = true ->
  post = "" \/ Str.starts_with "&" post = true ->
  Str.contains post "&url=" = false ->
  Str.contains p "%" = true ->
  utf8_valid (percent_decode (list_ascii_of_string p)) = false ->
  decode_search_url (pre ++ "&url=" ++ p ++ post) = p ++ post.
Proof.
  intros Hb Hc Hf Hna Hp Hpost Hpct Hbad.
  unfold decode_search_url. rewrite (decode_bing_none _ Hb).
  rewrite StrFacts.sapp_assoc.
  rewrite (StrFacts.contains_app_l _ _ _ (StrFacts.contains_app_l _ _ _ Hc)).
  unfold google_param, Str.split_nth1. rewrite (StrFacts.find_split_app _ _ _ _ _ Hf).
  rewrite sapp_nil_l.
  assert (Hn : Str.find_split "&url=" (p ++ post) = None).
  { rewrite (StrFacts.find_split_no_amp "url=" p post Hna).
    unfold Str.contains in Hpost.
    destruct (Str.find_split "&url=" post) as [[b a]|]; [discriminate|reflexivity]. }
  rewrite (split_first_none _ _ Hn).
  rewrite (StrFacts.split_first_no_amp _ _ Hna Hp).
  unfold url_decode, from_utf8. rewrite Hpct, Hbad. reflexivity.
Qed.

Lemma decode_search_url_google_fallback_witness :
  decode_search_url ("https://www.google.com/url?sa=t" ++ "&url=" ++ "%FF" ++ "&ved=2")
  = "%FF" ++ "&ved=2".
Proof.
  apply decode_search_url_google_fallback; vm_compute;
    first [reflexivity | right; reflexivity].
Defined.

(** ** [extract_outbound_links], [extract_images], [extract_open_graph] *)

Lemma contains_empty s : Str.contains s "" = true.
Proof. unfold Str.contains. destruct s; reflexivity. Qed.

(** With an empty [base_domain] (what [extract_website_data] passes when the
    final URL has no host), no link is kept. *)
Theorem extract_outbound_links_empty_domain (hash_order : list string -> list string)
    (Hperm : forall l, Permutation (hash_order l) l) (hrefs : list string) :
  extract_outbound_links hash_order hrefs "" = [].
Proof.
  unfold extract_outbound_links.
  assert (Hf : List.filter (fun href => Str.starts_with "http" href
                                        && negb (Str.contains href "")) hrefs = []).
  { induction hrefs as [|h hs IH]; [reflexivity|].
    cbn [List.filter]. rewrite contains_empty, andb_false_r. exact IH. }
  rewrite Hf. cbn [nodup]. pose proof (Hperm []) as Hp.
  apply Permutation_sym, Permutation_nil in Hp. rewrite Hp. reflexivity.
Qed.

Lemma extract_outbound_links_empty_domain_witness :
  extract_outbound_links (fun l => l) ["https://other.org/"; "http://x.net/a"] "" = [].
Proof.
  apply (extract_outbound_links_empty_domain (fun l => l) (fun l => Permutation_refl l)).
Defined.

(** When at most 50 distinct hrefs qualify, every qualifying href (starting
    with "http", not containing [base_domain]) is in the result. *)
Theorem extract_outbound_links_complete (hash_order : list string -> list string)
    (Hperm : forall l, Permutation (hash_order l) l)
    (hrefs : list string) (base_domain : string) :
  (length (nodup string_dec
     (List.filter (fun href => Str.starts_with "http" href && negb (Str.contains href base_domain))
        hrefs)) <= 50)%nat ->
  forall h, In h hrefs -> Str.starts_with "http" h = true -> Str.contains h base_domain = false ->
  In h (extract_outbound_links hash_order hrefs base_domain).
Proof.
  intros Hlen h Hin Hs Hc. unfold extract_outbound_links.
  rewrite firstn_all2 by (rewrite (Permutation_length (Hperm _)); exact Hlen).
  apply (Permutation_in _ (Permutation_sym (Hperm _))).
  apply nodup_In, filter_In. rewrite Hs, Hc. auto.
Qed.

Lemma extract_outbound_links_complete_witness :
  In "https://other.org/" (extract_outbound_links (fun l => l)
       ["https://other.org/"; "https://example.com/b"] "example.com").
Proof.
  apply (extract_outbound_links_complete (fun l => l) (fun l => Permutation_refl l));
    vm_compute; first [reflexivity | lia | tauto].
Defined.

Lemma filter_map_In {A B} (f : A -> option B) l y :
  In y (Dom.filter_map f l) -> exists x, In x l /\ f x = Some y.
Proof.
  induction l as [|x l IH]; [intros []|]. cbn [Dom.filter_map].
  destruct (f x) as [z|] eqn:E.
  - intros Hy. destruct Hy as [Hy|Hy].
    + subst y. exists x. split; [left; reflexivity | exact E].
    + destruct (IH Hy) as [w [Hw Hf]]. exists w. split; [right; exact Hw | exact Hf].
  - intros Hy. destruct (IH Hy) as [w [Hw Hf]]. exists w. split; [right; exact Hw | exact Hf].
Qed.

(** [extract_images] returns at most 20 images; each comes from an [img]
    element of the document whose [src] attribute (or, only when [src] is
    absent, [data-src]) is a value of at least 10 bytes containing neither
    "1x1" nor "pixel"; the value is kept when it starts with "http" and is
    appended to [base_url] otherwise. *)
Theorem extract_images_spec (imgs : list Dom.Element) (base_url : string) :
  (length (Dom.extract_images imgs base_url) <= 20)%nat
  /\ forall im, In im (Dom.extract_images imgs base_url) ->
     exists el raw, In el imgs
       /\ (Dom.attr el "src" = Some raw
           \/ (Dom.attr el "src" = None /\ Dom.attr el "data-src" = Some raw))
       /\ Str.contains raw "1x1" = false /\ Str.contains raw "pixel" = false
       /\ (10 <= String.length raw)%nat
       /\ Dom.src im = (if Str.starts_with "http" raw then raw else base_url ++ raw)
       /\ Dom.alt im = Dom.attr el "alt" /\ Dom.title im = Dom.attr el "title".
Proof.
  unfold Dom.extract_images. split; [rewrite length_firstn; lia|].
  intros im Hin. apply In_firstn, filter_map_In in Hin as [el [Hel Hf]].
  exists el. unfold Dom.image_data in Hf.
  destruct (Dom.attr el "src") as [s|] eqn:Es.
  - exists s. destruct (Str.contains s "1x1") eqn:E1; [discriminate|].
    destruct (Str.contains s "pixel") eqn:E2; [discriminate|].
    destruct (String.length s <? 10)%nat eqn:E3; [discriminate|].
    apply Nat.ltb_ge in E3. injection Hf as <-. cbn. auto 10.
  - destruct (Dom.attr el "data-src") as [s|] eqn:Ed; [|discriminate].
    exists s. destruct (Str.contains s "1x1") eqn:E1; [discriminate|].
    destruct (Str.contains s "pixel") eqn:E2; [discriminate|].
    destruct (String.length s <? 10)%nat eqn:E3; [discriminate|].
    apply Nat.ltb_ge in E3. injection Hf as <-. cbn. auto 10.
Qed.

(** [meta_content] (the lookup behind [extract_open_graph]) returns the
    [content] attribute of the first [meta] element whose attribute [key]
    is [value], whatever follows: when that element has no [content], the
    result is [None] even if a later one has it. *)
Theorem meta_content_first (pre : list Dom.Element) (el : Dom.Element)
    (post : list Dom.Element) (key value : string) :
  Forall (fun e => Dom.attr e key <> Some value) pre ->
  Dom.attr el key = Some value ->
  Dom.meta_content (pre ++ el :: post) key value = Dom.attr el "content".
Proof.
  intros Hpre Hel. unfold Dom.meta_content.
  induction pre as [|e pre IH].
  - cbn [app find]. rewrite Hel, String.eqb_refl. reflexivity.
  - apply Forall_cons_iff in Hpre as [He Hpre]. cbn [app find].
    destruct (Dom.attr e key) as [v|] eqn:Ev.
    + destruct (String.eqb_spec v value) as [->|_]; [contradiction|]. apply IH, Hpre.
    + apply IH, Hpre.
Qed.

Lemma meta_content_first_witness :
  Dom.meta_content
    [[("property", "og:title")]; [("property", "og:title"); ("content", "Later title")]]
    "property" "og:title"
  = None.
Proof.
  exact (meta_content_first [] [("property", "og:title")]
           [[("property", "og:title"); ("content", "Later title")]] "property" "og:title"
           (Forall_nil _) eq_refl).
Defined.

(** ** [search_google]: outcomes of the retry loop *)

Lemma google_loop_ok attempt k : forall n e tr d,
  Google.google_loop attempt n k e = (tr, Ok d) ->
  exists m, (n <= m < n + k)%nat /\ attempt m = Ok d /\ results d <> []
    /\ forall m', (n <= m' < m)%nat ->
       match attempt m' with Ok d' => results d' = [] | Err _ => True end.
Proof.
  induction k as [|k IH]; intros n e tr d H; [discriminate|].
  cbn [Google.google_loop] in H.
  destruct (attempt n) as [d0|e0] eqn:A.
  - destruct (results d0) as [|r rs] eqn:R.
    + destruct (Google.google_loop attempt (S n) k e) as [tr' r'] eqn:G.
      assert (Hr : r' = Ok d) by (destruct (n <? 3)%nat; congruence). subst r'.
      destruct (IH _ _ _ _ G) as [m [Hm [Am [Hd Hbefore]]]].
      exists m. split; [lia|split; [exact Am|split; [exact Hd|]]].
      intros m' Hm'. destruct (Nat.eq_dec m' n) as [->|Hne].
      * rewrite A. exact R.
      * apply Hbefore. lia.
    + injection H as _ <-. exists n. split; [lia|split; [exact A|split]].
      * rewrite R. discriminate.
      * intros m' Hm'. lia.
  - destruct (Google.google_loop attempt (S n) k e0) as [tr' r'] eqn:G.
    assert (Hr : r' = Ok d) by (destruct (n <? 3)%nat; congruence). subst r'.
    destruct (IH _ _ _ _ G) as [m [Hm [Am [Hd Hbefore]]]].
    exists m. split; [lia|split; [exact Am|split; [exact Hd|]]].
    intros m' Hm'. destruct (Nat.eq_dec m' n) as [->|Hne].
    + rewrite A. exact I.
    + apply Hbefore. lia.
Qed.

(** [search_google] returns [Ok d] only for the first of its (at most
    three) attempts that returns [Ok] with a non-empty result list: [d] has
    results, and every earlier attempt failed or returned no result. *)
Theorem search_google_ok_first_nonempty (attempt : nat -> result SerpData)
    (tr : list Google.Event) (d : SerpData) :
  Google.search_google attempt = (tr, Ok d) ->
  exists n, (1 <= n <= 3)%nat /\ attempt n = Ok d /\ results d <> []
    /\ forall m, (1 <= m < n)%nat ->
       match attempt m with Ok d' => results d' = [] | Err _ => True end.
Proof.
  intros H. destruct (google_loop_ok attempt 3 1 _ tr d H) as [m [Hm Hrest]].
  exists m. split; [lia|exact Hrest].
Qed.

Lemma search_google_ok_first_nonempty_witness :
  exists n, (1 <= n <= 3)%nat
    /\ (fun n => if (n <? 2)%nat then Err "timeout"
                 else Ok {| results := [{| title := "T"; link := "https://example.com/";
                                           snippet := "" |}];
                            people_also_ask := []; related_searches := [];
                            featured_snippet := None; total_results := None |}) n
       = Ok {| results := [{| title := "T"; link := "https://example.com/"; snippet := "" |}];
               people_also_ask := []; related_searches := [];
               featured_snippet := None; total_results := None |}
    /\ results {| results := [{| title := "T"; link := "https://example.com/"; snippet := "" |}];
                  people_also_ask := []; related_searches := [];
                  featured_snippet := None; total_results := None |} <> []
    /\ forall m, (1 <= m < n)%nat ->
       match (fun n => if (n <? 2)%nat then Err "timeout"
                 else Ok {| results := [{| title := "T"; link := "https://example.com/";
                                           snippet := "" |}];
                            people_also_ask := []; related_searches := [];
                            featured_snippet := None; total_results := None |}) m with
       | Ok d' => results d' = [] | Err _ => True end.
Proof.
  apply (search_google_ok_first_nonempty _
           [Google.Attempt 1; Google.Sleep 5; Google.Attempt 2]).
  vm_compute. reflexivity.
Defined.

(** When none of the three attempts returns results, [search_google] fails
    with a message naming the error of the last attempt that failed, or
    "No results found" when every attempt returned no result. *)
Theorem search_google_failure_message (attempt : nat -> result SerpData) :
  (forall n, (1 <= n <= 3)%nat ->
     match attempt n with Ok d => results d = [] | Err _ => True end) ->
  snd (Google.search_google attempt)
  = Err ("Google search failed after 3 attempts. Last error: "
         ++ match attempt 3%nat with
            | Err e3 => e3
            | Ok _ => match attempt 2%nat with
                      | Err e2 => e2
                      | Ok _ => match attempt 1%nat with
                                | Err e1 => e1
                                | Ok _ => "No results found"
                                end
                      end
            end).
Proof.
  intros H.
  pose proof (H 1%nat ltac:(lia)) as H1.
  pose proof (H 2%nat ltac:(lia)) as H2.
  pose proof (H 3%nat ltac:(lia)) as H3.
  clear H. unfold Google.search_google. cbn [Google.google_loop].
  revert H1 H2 H3.
  destruct (attempt 1%nat) as [d1|e1]; destruct (attempt 2%nat) as [d2|e2];
    destruct (attempt 3%nat) as [d3|e3]; intros H1 H2 H3;
    repeat match goal with Hx : results _ = [] |- _ => rewrite Hx; clear Hx end;
    reflexivity.
Qed.

Lemma search_google_failure_message_witness :
  snd (Google.search_google
         (fun n => if (n <? 2)%nat then Err "Navigation failed"
                   else Ok {| results := []; people_also_ask := []; related_searches := [];
                              featured_snippet := None; total_results := None |}))
  = Err ("Google search failed after 3 attempts. Last error: " ++ "Navigation failed").
Proof.
  apply (search_google_failure_message
           (fun n => if (n <? 2)%nat then Err "Navigation failed"
                     else Ok {| results := []; people_also_ask := []; related_searches := [];
                                featured_snippet := None; total_results := None |})).
  intros n Hn. destruct (n <? 2)%nat; reflexivity.
Defined.

(** [search_google] waits at most 15 s in total, and never after its last
    attempt. *)
Theorem search_google_sleeps (attempt : nat -> result SerpData) :
  (list_sum (map (fun ev => match ev with Google.Sleep s => s | _ => O end)
               (fst (Google.search_google attempt))) <= 15)%nat
  /\ exists n, last (fst (Google.search_google attempt)) (Google.Sleep 0) = Google.Attempt n.
Proof.
  unfold Google.search_google. cbn [Google.google_loop].
  destruct (attempt 1%nat) as [d1|e1]; try destruct (results d1);
    destruct (attempt 2%nat) as [d2|e2]; try destruct (results d2);
    destruct (attempt 3%nat) as [d3|e3]; try destruct (results d3);
    cbn; (split; [lia | eexists; reflexivity]).
Qed.

Lemma collect_filtered bs r :
  In r (Google.collect bs) ->
  link r <> "" /\ Str.contains (link r) "google.com/search" = false.
Proof.
  induction bs as [|b bs IH]; [intros []|]. cbn [Google.collect].
  destruct (Google.heading b) as [t|]; [|exact IH].
  destruct (Google.anchor_href b) as [h|]; [|exact IH].
  destruct (negb (String.eqb h "")) eqn:E1; [|exact IH].
  destruct (negb (Str.contains h "google.com/search")) eqn:E2; [|exact IH].
  intros [<-|Hr]; [|exact (IH Hr)].
  cbn [link]. apply negb_true_iff in E1, E2. split; [|exact E2].
  intros ->. discriminate.
Qed.

(** On the DOM path of [search_google_attempt], every result has a non-empty
    link that does not contain "google.com/search". *)
Theorem google_dom_results_filtered (env : Google.Env) (d : Google.Dom) :
  Google.dom_eval env = Ok (Some d) ->
  forall r, In r (Google.extracted env) ->
  link r <> "" /\ Str.contains (link r) "google.com/search" = false.
Proof.
  intros Hd r Hr. unfold Google.extracted in Hr. rewrite Hd in Hr.
  unfold Google.dom_extract in Hr.
  destruct (negb (Google.has_main d)); [destruct Hr|].
  destruct (_ && _ && _); [destruct Hr|].
  apply In_firstn in Hr. exact (collect_filtered _ _ Hr).
Qed.

Lemma google_dom_results_filtered_witness :
  Forall (fun r => link r <> "" /\ Str.contains (link r) "google.com/search" = false)
    (Google.extracted
      {| Google.launch := Ok tt;
         Google.dom_eval := Ok (Some {| Google.has_main := true;
            Google.result_blocks :=
              [{| Google.heading := Some "A";
                  Google.anchor_href := Some "https://www.google.com/search?q=x";
                  Google.snippet_text := None |};
               {| Google.heading := Some "B"; Google.anchor_href := Some "https://example.com/";
                  Google.snippet_text := None |}];
            Google.has_main_h3 := true; Google.has_script_blob := false |});
         Google.js_eval := Ok None; Google.html := Ok ""; Google.paa := [];
         Google.related := []; Google.count := None; Google.featured := None |}).
Proof. apply Forall_forall. eapply google_dom_results_filtered. reflexivity. Defined.

(** ** Worker: malformed payloads, successful jobs, the polling loop *)

(** A payload at the tail of the Redis list that does not parse as a
    [CrawlJob] is removed by the pop and lost: one worker iteration leaves
    the rest of the queue, the [tasks] table and the stored objects as they
    were and only logs the parse error. *)
Theorem worker_step_malformed_payload {V} (decode : V -> result CrawlJob)
    (svc : Services) (st : WState V) (q : list V) (v : V) (e : string) :
  w_queue st = (q ++ [v])%list ->
  decode v = Err e ->
  worker_step decode svc st
  = {| w_queue := q; w_tasks := w_tasks st; w_blobs := w_blobs st;
       w_log := ("[Worker] Redis error: " ++ e) :: w_log st |}.
Proof.
  intros Hq Hd. unfold worker_step, pop_job. rewrite Hq, rpop_snoc, Hd. reflexivity.
Qed.

Lemma worker_step_malformed_payload_witness :
  worker_step (fun s : string => if String.eqb s "{}" then Err "missing field `id`"
                                 else Err "expected value")
    {| svc_search_google := fun _ => Err ""; svc_generic_crawl := fun _ _ => Err "";
       svc_search_bing := fun _ => Err ""; svc_extract_website_data := fun _ => Err "";
       svc_to_json := fun _ => ""; svc_store_ok := fun _ _ => true;
       svc_insert_ok := fun _ _ => true |}
    {| w_queue := ["a"; "{}"]; w_tasks := []; w_blobs := []; w_log := [] |}
  = {| w_queue := ["a"]; w_tasks := []; w_blobs := [];
       w_log := ["[Worker] Redis error: missing field `id`"] |}.
Proof.
  exact (worker_step_malformed_payload
           (fun s : string => if String.eqb s "{}" then Err "missing field `id`"
                              else Err "expected value") _
           {| w_queue := ["a"; "{}"]; w_tasks := []; w_blobs := []; w_log := [] |}
           ["a"] "{}" "missing field `id`" eq_refl eq_refl).
Defined.

Lemma process_job_success_row {V} (svc : Services) (st : WState V) (job : CrawlJob)
    (serp : SerpData) :
  search_step svc job = Ok serp ->
  (forall row, svc_insert_ok svc (w_tasks st) row = true) ->
  exists st' row, process_job svc st job = (Ok tt, st')
    /\ w_queue st' = w_queue st /\ w_tasks st' = row :: w_tasks st
    /\ t_id row = id job /\ t_keyword row = keyword job /\ t_engine row = engine job
    /\ t_status row = "completed" /\ t_results_json row = svc_to_json svc serp
    /\ match results serp with
       | r :: _ =>
           match svc_extract_website_data svc (link r) with
           | Ok d => t_extracted_text row = x_main_text d /\ t_first_page_html row = x_html d
           | Err _ => t_extracted_text row = "" /\ t_first_page_html row = ""
           end
       | [] => t_extracted_text row = "" /\ t_first_page_html row = ""
       end.
Proof.
  intros Hs Hins. unfold process_job. rewrite Hs.
  destruct (results serp) as [|r rs];
    [|destruct (svc_extract_website_data svc (link r)) as [d|]];
    cbv zeta;
    repeat match goal with
           | |- context [if negb (String.eqb ?x ?y) then _ else _] =>
               destruct (negb (String.eqb x y))
           | |- context [if svc_store_ok ?s ?k ?h then _ else _] =>
               destruct (svc_store_ok s k h)
           end;
    cbn [w_tasks w_queue set_log]; rewrite Hins;
    (eexists; eexists; split; [reflexivity|]);
    cbn; repeat split.
Qed.

(** When the search for a job succeeds and the [INSERT] is accepted,
    [process_job] returns [Ok], leaves the queue alone, and adds one
    completed row with the job's id, keyword and engine and the serialised
    SERP data, which a status query for the job id then returns; the
    extracted text and HTML come from the first result's page, and are empty
    when there is no result or its extraction fails. *)
Theorem process_job_success {V} (svc : Services) (st : WState V) (job : CrawlJob)
    (serp : SerpData) :
  search_step svc job = Ok serp ->
  (forall row, svc_insert_ok svc (w_tasks st) row = true) ->
  exists st' row, process_job svc st job = (Ok tt, st')
    /\ w_queue st' = w_queue st /\ w_tasks st' = row :: w_tasks st
    /\ Api.get_crawl_status true (w_tasks st') (id job) = Some row
    /\ t_id row = id job /\ t_keyword row = keyword job /\ t_engine row = engine job
    /\ t_status row = "completed" /\ t_results_json row = svc_to_json svc serp
    /\ match results serp with
       | r :: _ =>
           match svc_extract_website_data svc (link r) with
           | Ok d => t_extracted_text row = x_main_text d /\ t_first_page_html row = x_html d
           | Err _ => t_extracted_text row = "" /\ t_first_page_html row = ""
           end
       | [] => t_extracted_text row = "" /\ t_first_page_html row = ""
       end.
Proof.
  intros Hs Hins.
  destruct (process_job_success_row svc st job serp Hs Hins)
    as [st' [row [Hp [Hq [Ht [Hid Hrest]]]]]].
  exists st', row. split; [exact Hp|split; [exact Hq|split; [exact Ht|split]]].
  - unfold Api.get_crawl_status. rewrite Ht. cbn [find].
    rewrite Hid, String.eqb_refl. reflexivity.
  - split; [exact Hid|exact Hrest].
Qed.

Lemma process_job_success_witness :
  exists st' row,
    process_job
      {| svc_search_google := fun _ => Err "unused"; svc_generic_crawl := fun _ _ => Err "unused";
         svc_search_bing := fun _ => Ok {| results := []; people_also_ask := [];
                                           related_searches := []; featured_snippet := None;
                                           total_results := None |};
         svc_extract_website_data := fun _ => Err "unused";
         svc_to_json := fun _ => "{}"; svc_store_ok := fun _ _ => true;
         svc_insert_ok := fun _ _ => true |}
      {| w_queue := ([] : list string); w_tasks := []; w_blobs := []; w_log := [] |}
      {| id := "job-1"; keyword := "rust"; engine := "bing"; selectors := None |}
    = (Ok tt, st')
    /\ w_queue st' = [] /\ w_tasks st' = [row]
    /\ Api.get_crawl_status true (w_tasks st') "job-1" = Some row
    /\ t_id row = "job-1" /\ t_keyword row = "rust" /\ t_engine row = "bing"
    /\ t_status row = "completed" /\ t_results_json row = "{}"
    /\ (t_extracted_text row = "" /\ t_first_page_html row = "").
Proof.
  exact (process_job_success
           {| svc_search_google := fun _ => Err "unused";
              svc_generic_crawl := fun _ _ => Err "unused";
              svc_search_bing := fun _ => Ok {| results := []; people_also_ask := [];
                                                related_searches := []; featured_snippet := None;
                                                total_results := None |};
              svc_extract_website_data := fun _ => Err "unused";
              svc_to_json := fun _ => "{}"; svc_store_ok := fun _ _ => true;
              svc_insert_ok := fun _ _ => true |}
           {| w_queue := ([] : list string); w_tasks := []; w_blobs := []; w_log := [] |}
           {| id := "job-1"; keyword := "rust"; engine := "bing"; selectors := None |}
           {| results := []; people_also_ask := []; related_searches := [];
              featured_snippet := None; total_results := None |}
           eq_refl (fun _ => eq_refl)).
Defined.

(** [process_job] never changes the Redis queue, and changes the stored
    objects only by adding the first result's page HTML under the key
    [engine/id.html], when that HTML is non-empty and the upload succeeds. *)
Theorem process_job_blobs {V} (svc : Services) (st : WState V) (job : CrawlJob) :
  w_queue (snd (process_job svc st job)) = w_queue st
  /\ (w_blobs (snd (process_job svc st job)) = w_blobs st
      \/ exists serp r rs d,
           search_step svc job = Ok serp /\ results serp = r :: rs
           /\ svc_extract_website_data svc (link r) = Ok d /\ x_html d <> ""
           /\ svc_store_ok svc (engine job ++ "/" ++ id job ++ ".html") (x_html d) = true
           /\ w_blobs (snd (process_job svc st job))
              = (engine job ++ "/" ++ id job ++ ".html", x_html d) :: w_blobs st).
Proof.
  unfold process_job.
  destruct (search_step svc job) as [serp|e] eqn:Hs; [|split; [reflexivity|left; reflexivity]].
  destruct (results serp) as [|r rs] eqn:Hr;
    [|destruct (svc_extract_website_data svc (link r)) as [d|] eqn:Hx];
    cbv zeta;
    try (destruct (negb (String.eqb (x_html d) "")) eqn:Hh);
    try (destruct (svc_store_ok svc (engine job ++ "/" ++ id job ++ ".html") (x_html d)) eqn:Hst);
    destruct (svc_insert_ok svc _ _); cbn [snd w_queue w_blobs set_log];
    (split; [reflexivity|]);
    try (left; reflexivity).
  all: right; exists serp, r, rs, d; repeat split; try assumption; try reflexivity.
  all: apply negb_true_iff, String.eqb_neq in Hh; exact Hh.
Qed.

(** When every queued job's search succeeds and the database accepts every
    row, the worker loop, run once per queued job, empties the queue and
    adds one row per job to [tasks], the first pushed job first (the table
    is listed newest first). *)
Theorem run_worker_fifo {V} (encode : CrawlJob -> V) (decode : V -> result CrawlJob)
    (Hrt : forall j, decode (encode j) = Ok j)
    (svc : Services) (jobs : list CrawlJob) (st : WState V) :
  w_queue st = push_all encode jobs [] ->
  (forall j, In j jobs -> exists serp, search_step svc j = Ok serp) ->
  (forall ts row, svc_insert_ok svc ts row = true) ->
  w_queue (run_worker decode svc (length jobs) st) = []
  /\ map t_id (w_tasks (run_worker decode svc (length jobs) st))
     = (rev (map id jobs) ++ map t_id (w_tasks st))%list.
Proof.
  intros Hq Hsearch Hins. rewrite push_all_rev, app_nil_r in Hq.
  revert st Hq Hsearch. induction jobs as [|j js IH]; intros st Hq Hsearch.
  - split; [exact Hq|reflexivity].
  - destruct (Hsearch j (or_introl eq_refl)) as [serp Hs].
    set (st0 := {| w_queue := rev (map encode js); w_tasks := w_tasks st;
                   w_blobs := w_blobs st; w_log := w_log st |}).
    destruct (process_job_success_row svc st0 j serp Hs (Hins _))
      as [st1 [row [Hp [Hq1 [Ht1 [Hid _]]]]]].
    assert (Hstep : worker_step decode svc st = st1).
    { unfold worker_step, pop_job. rewrite Hq. cbn [map rev].
      rewrite rpop_snoc, Hrt. fold st0. rewrite Hp. reflexivity. }
    cbn [length run_worker]. rewrite Hstep.
    destruct (IH st1 Hq1 (fun j' H => Hsearch j' (or_intror H))) as [Hqe Htasks].
    split; [exact Hqe|].
    rewrite Htasks, Ht1. cbn [map rev]. rewrite Hid, <- app_assoc. reflexivity.
Qed.

Lemma run_worker_fifo_witness :
  let j1 := {| id := "job-1"; keyword := "rust"; engine := "bing"; selectors := None |} in
  let j2 := {| id := "job-2"; keyword := "rocq"; engine := "google"; selectors := None |} in
  let svc := {| svc_search_google := fun _ => Ok {| results := []; people_also_ask := [];
                    related_searches := []; featured_snippet := None; total_results := None |};
                svc_generic_crawl := fun _ _ => Err "unused";
                svc_search_bing := fun _ => Ok {| results := []; people_also_ask := [];
                    related_searches := []; featured_snippet := None; total_results := None |};
                svc_extract_website_data := fun _ => Err "unused";
                svc_to_json := fun _ => "{}"; svc_store_ok := fun _ _ => true;
                svc_insert_ok := fun _ _ => true |} in
  let st := {| w_queue := push_all (fun x => x) [j1; j2] []; w_tasks := [];
               w_blobs := []; w_log := [] |} in
  w_queue (run_worker (fun x : CrawlJob => Ok x) svc 2 st) = []
  /\ map t_id (w_tasks (run_worker (fun x : CrawlJob => Ok x) svc 2 st))
     = ["job-2"; "job-1"].
Proof.
  intros j1 j2 svc st.
  exact (run_worker_fifo (fun x : CrawlJob => x) (fun x => Ok x) (fun _ => eq_refl)
           svc [j1; j2] st eq_refl
           (fun j H => match H with
                       | or_introl E => ex_intro _ _ (f_equal (search_step svc) (eq_sym E))
                       | or_intror (or_introl E) =>
                           ex_intro _ _ (f_equal (search_step svc) (eq_sym E))
                       | or_intror (or_intror F) => match F with end
                       end)
           (fun _ _ => eq_refl)).
Defined.

(** ** [trigger_crawl]: file names, the error log, the task row *)

Lemma list_ascii_app (x y : string) :
  list_ascii_of_string (x ++ y) = (list_ascii_of_string x ++ list_ascii_of_string y)%list.
Proof. induction x as [|c x IH]; [reflexivity|]. cbn. rewrite IH. reflexivity. Qed.

Lemma find_split_char c s :
  match Str.find_split (String c EmptyString) s with
  | Some (b, a) => s = b ++ String c a /\ ~ In c (list_ascii_of_string b)
  | None => ~ In c (list_ascii_of_string s)
  end.
Proof.
  induction s as [|x s IH]; [intros []|].
  cbn [Str.find_split Str.strip_prefix].
  destruct (Ascii.eqb c x) eqn:E.
  - apply Ascii.eqb_eq in E. subst x. split; [reflexivity|intros []].
  - apply Ascii.eqb_neq in E.
    destruct (Str.find_split (String c EmptyString) s) as [[b a]|].
    + destruct IH as [-> Hb]. split; [reflexivity|].
      intros [Hx|Hx]; [congruence|contradiction].
    + intros [Hx|Hx]; [congruence|contradiction].
Qed.

Lemma contains_char_false c s :
  ~ In c (list_ascii_of_string s) -> Str.contains s (String c EmptyString) = false.
Proof.
  intros Hn. unfold Str.contains. pose proof (find_split_char c s) as H.
  destruct (Str.find_split (String c EmptyString) s) as [[b a]|]; [|reflexivity].
  exfalso. apply Hn. destruct H as [-> _].
  rewrite list_ascii_app. apply in_or_app. right. left. reflexivity.
Qed.

Lemma replace_char n : forall s c d, c <> d -> (String.length s < n)%nat ->
  String.length (replace_fuel n s (String c EmptyString) (String d EmptyString))
    = String.length s
  /\ forall x, In x (list_ascii_of_string
                      (replace_fuel n s (String c EmptyString) (String d EmptyString))) ->
     x <> c /\ (In x (list_ascii_of_string s) \/ x = d).
Proof.
  induction n as [|n IH]; intros s c d Hcd Hlen; [lia|].
  cbn [replace_fuel]. pose proof (find_split_char c s) as Hf.
  destruct (Str.find_split (String c EmptyString) s) as [[b a]|].
  - destruct Hf as [Hs Hb]. subst s.
    rewrite StrFacts.slength_app in Hlen. cbn [String.length] in Hlen.
    destruct (IH a c d Hcd ltac:(lia)) as [IHl IHc]. split.
    + rewrite StrFacts.slength_app. cbn [String.length append]. rewrite IHl.
      rewrite StrFacts.slength_app. reflexivity.
    + intros x Hx. rewrite list_ascii_app in Hx. cbn [append list_ascii_of_string] in Hx.
      rewrite list_ascii_app. cbn [list_ascii_of_string].
      apply in_app_or in Hx. destruct Hx as [Hx|[<-|Hx]].
      * split; [intros ->; contradiction|left; apply in_or_app; left; exact Hx].
      * split; [intros E; apply Hcd; symmetry; exact E|right; reflexivity].
      * destruct (IHc x Hx) as [Hxc [Hxa| ->]]; split; try exact Hxc.
        -- left. apply in_or_app. right. right. exact Hxa.
        -- right. reflexivity.
  - split; [reflexivity|]. intros x Hx. split; [intros ->; contradiction|left; exact Hx].
Qed.

(** The keyword part of the result file names in [trigger_crawl] keeps the
    keyword's length and contains no space and no '/', so it never adds a
    directory level under the storage path. *)
Theorem safe_keyword_spec (keyword : string) :
  String.length (str_replace (str_replace keyword " " "_") "/" "-") = String.length keyword
  /\ Str.contains (str_replace (str_replace keyword " " "_") "/" "-") " " = false
  /\ Str.contains (str_replace (str_replace keyword " " "_") "/" "-") "/" = false.
Proof.
  unfold str_replace.
  destruct (replace_char (S (String.length keyword)) keyword " " "_"
              ltac:(discriminate) ltac:(lia)) as [L1 C1].
  set (k1 := replace_fuel (S (String.length keyword)) keyword " " "_") in *.
  destruct (replace_char (S (String.length k1)) k1 "/" "-"
              ltac:(discriminate) ltac:(lia)) as [L2 C2].
  split; [rewrite L2; exact L1|split].
  - apply contains_char_false. intros Hx.
    destruct (C2 _ Hx) as [_ [Hk1|E]]; [|discriminate].
    destruct (C1 _ Hk1) as [Hne _]. apply Hne. reflexivity.
  - apply contains_char_false. intros Hx.
    destruct (C2 _ Hx) as [Hne _]. apply Hne. reflexivity.
Qed.

Lemma find_filter_other (fs : list (string * string)) p q :
  p <> q ->
  find (fun pc => String.eqb (fst pc) p) (List.filter (fun pc => negb (String.eqb (fst pc) q)) fs)
  = find (fun pc => String.eqb (fst pc) p) fs.
Proof.
  intros Hpq. induction fs as [|[x c] fs IH]; [reflexivity|]. cbn [List.filter find fst].
  destruct (String.eqb x q) eqn:Exq; cbn [negb find fst].
  - apply String.eqb_eq in Exq. subst x.
    apply String.eqb_neq in Hpq. rewrite String.eqb_sym, Hpq. exact IH.
  - rewrite IH. reflexivity.
Qed.

Lemma read_file_write svc st path c err p :
  Api.write_ok svc path = true ->
  Api.read_file (Api.files (Api.write svc st path c err)) p
  = if String.eqb path p then Some c else Api.read_file (Api.files st) p.
Proof.
  intros Hw. unfold Api.write. rewrite Hw. unfold Api.read_file. cbn [Api.files find fst].
  destruct (String.eqb path p) eqn:E; [reflexivity|].
  apply String.eqb_neq in E. rewrite find_filter_other by congruence. reflexivity.
Qed.

Lemma tasks_write svc st path c err :
  Api.tasks (Api.write svc st path c err) = Api.tasks st.
Proof. unfold Api.write. destruct (Api.write_ok svc path); reflexivity. Qed.

(** When the search fails with [e] and the error log can be written,
    [trigger_crawl]'s task replaces the whole content of "crawl_errors.log"
    with "Error: e" and a newline (an earlier error is overwritten, not
    appended to), leaves every other file and the [tasks] table unchanged,
    and prints "Crawl failed: e". *)
Theorem crawl_task_search_error (svc : Api.Services) (storage_path task_id keyword : string)
    (engine_opt : option string) (st : Api.State) (e : string) :
  (if String.eqb (unwrap_or "bing" engine_opt) "google"
   then Api.search_google svc keyword else Api.search_bing svc keyword) = Err e ->
  Api.write_ok svc "crawl_errors.log" = true ->
  let st' := Api.crawl_task svc storage_path task_id keyword engine_opt st in
  Api.read_file (Api.files st') "crawl_errors.log" = Some ("Error: " ++ e ++ nl)
  /\ (forall p, p <> "crawl_errors.log" ->
        Api.read_file (Api.files st') p = Api.read_file (Api.files st) p)
  /\ Api.tasks st' = Api.tasks st
  /\ Api.log st' = ("Crawl failed: " ++ e) :: Api.log st.
Proof.
  intros Hs Hw st'. unfold st', Api.crawl_task. rewrite Hs.
  split; [|split; [|split]].
  - rewrite read_file_write by exact Hw. reflexivity.
  - intros p Hp. rewrite read_file_write by exact Hw.
    destruct (String.eqb "crawl_errors.log" p) eqn:E; [|reflexivity].
    apply String.eqb_eq in E. congruence.
  - rewrite tasks_write. reflexivity.
  - unfold Api.write. rewrite Hw. reflexivity.
Qed.

Lemma crawl_task_search_error_witness :
  let svc := {| Api.search_google := fun _ => Err "unused";
                Api.search_bing := fun _ => Err "Bing Challenge Detected";
                Api.extract_website_data := fun _ => Err "unused";
                Api.to_json := fun _ => "{}";
                Api.to_json_pretty := fun _ _ _ _ _ => Err "unused";
                Api.create_dir_ok := fun _ => true;
                Api.write_ok := fun _ => true;
                Api.insert_ok := fun _ _ => true |} in
  let st := {| Api.files := [("crawl_errors.log", "Error: old" ++ nl)]; Api.tasks := [];
               Api.log := [] |} in
  let st' := Api.crawl_task svc "crawl-results" "t1" "rust" None st in
  Api.read_file (Api.files st') "crawl_errors.log"
    = Some ("Error: " ++ "Bing Challenge Detected" ++ nl)
  /\ (forall p, p <> "crawl_errors.log" ->
        Api.read_file (Api.files st') p = Api.read_file (Api.files st) p)
  /\ Api.tasks st' = Api.tasks st
  /\ Api.log st' = ("Crawl failed: " ++ "Bing Challenge Detected") :: Api.log st.
Proof.
  intros svc st st'.
  exact (crawl_task_search_error svc "crawl-results" "t1" "rust" None st
           "Bing Challenge Detected" eq_refl eq_refl).
Defined.

(** When the search for the requested engine (default "bing") succeeds and
    the database accepts the row, [trigger_crawl]'s task adds one completed
    row for the task id, with the keyword, the resolved engine and the
    serialised SERP data, and [get_crawl_status] then returns it. *)
Theorem crawl_task_records_task (svc : Api.Services) (storage_path task_id keyword : string)
    (engine_opt : option string) (st : Api.State) (serp : SerpData) :
  (if String.eqb (unwrap_or "bing" engine_opt) "google"
   then Api.search_google svc keyword else Api.search_bing svc keyword) = Ok serp ->
  (forall row, Api.insert_ok svc (Api.tasks st) row = true) ->
  let st' := Api.crawl_task svc storage_path task_id keyword engine_opt st in
  exists row, Api.tasks st' = row :: Api.tasks st
    /\ Api.get_crawl_status true (Api.tasks st') task_id = Some row
    /\ t_status row = "completed" /\ t_keyword row = keyword
    /\ t_engine row = unwrap_or "bing" engine_opt
    /\ t_results_json row = Api.to_json svc serp.
Proof.
  intros Hs Hins st'. unfold st', Api.crawl_task. rewrite Hs. cbv zeta.
  destruct (Api.create_dir_ok svc storage_path);
  (destruct (results serp) as [|r rs];
    [|destruct (Api.extract_website_data svc (link r)) as [d|]]);
    match goal with
    | |- context [if negb (String.eqb ?x ?y) then _ else _] => destruct (negb (String.eqb x y))
    end;
    rewrite ?tasks_write; cbn [Api.tasks]; rewrite Hins;
    (eexists; split; [reflexivity|]);
    unfold Api.get_crawl_status; cbn [find t_id Api.tasks];
    rewrite String.eqb_refl; repeat split.
Qed.

Lemma crawl_task_records_task_witness :
  let svc := {| Api.search_google := fun _ => Err "unused";
                Api.search_bing := fun _ => Ok {| results := []; people_also_ask := [];
                    related_searches := []; featured_snippet := None; total_results := None |};
                Api.extract_website_data := fun _ => Err "unused";
                Api.to_json := fun _ => "{}";
                Api.to_json_pretty := fun _ _ _ _ _ => Ok "{ }";
                Api.create_dir_ok := fun _ => true;
                Api.write_ok := fun _ => true;
                Api.insert_ok := fun _ _ => true |} in
  let st' := Api.crawl_task svc "crawl-results" "t1" "rust lang" None
               {| Api.files := []; Api.tasks := []; Api.log := [] |} in
  exists row, Api.tasks st' = [row]
    /\ Api.get_crawl_status true (Api.tasks st') "t1" = Some row
    /\ t_status row = "completed" /\ t_keyword row = "rust lang"
    /\ t_engine row = "bing" /\ t_results_json row = "{}".
Proof.
  intros svc st'.
  exact (crawl_task_records_task svc "crawl-results" "t1" "rust lang" None
           {| Api.files := []; Api.tasks := []; Api.log := [] |}
           {| results := []; people_also_ask := []; related_searches := [];
              featured_snippet := None; total_results := None |}
           eq_refl (fun _ => eq_refl)).
Defined.

(** ** Start-up retry loops: MinIO bucket and database *)

Lemma init_loop_other_error head create_ok (Hh : forall i, head i = Storage.OtherError) k :
  forall fuel i a, (a + k = 29)%nat -> (k < fuel)%nat ->
  Storage.init_loop fuel head create_ok i a
  = Some (Err "Failed to connect to MinIO after 30 attempts", k).
Proof.
  induction k as [|k IH]; intros [|fuel] i a Ha Hf; try lia; cbn [Storage.init_loop];
    rewrite Hh.
  - replace a with 29%nat by lia. reflexivity.
  - replace (30 <=? S a)%nat with false by (symmetry; apply Nat.leb_gt; lia).
    rewrite (IH fuel (S i) (S a)) by lia. reflexivity.
Qed.

(** When every [head_bucket] fails with a connection error,
    [StorageManager::new] gives up with "Failed to connect to MinIO after 30
    attempts" after 30 requests and 29 two-second waits. *)
Theorem storage_new_gives_up (head : nat -> Storage.HeadBucket) (create_ok : nat -> bool)
    (fuel : nat) :
  (forall i, head i = Storage.OtherError) -> (30 <= fuel)%nat ->
  Storage.new fuel head create_ok
  = Some (Err "Failed to connect to MinIO after 30 attempts", 29%nat).
Proof.
  intros Hh Hf. unfold Storage.new. apply (init_loop_other_error head create_ok Hh); lia.
Qed.

Lemma storage_new_gives_up_witness :
  Storage.new 30 (fun _ => Storage.OtherError) (fun _ => true)
  = Some (Err "Failed to connect to MinIO after 30 attempts", 29%nat).
Proof. exact (storage_new_gives_up _ _ 30 (fun _ => eq_refl) (le_n 30)). Defined.

(** A bucket that is reported missing but cannot be created is retried
    forever, without waiting and without counting towards the 30-attempt
    limit: [StorageManager::new] does not return within any number of
    iterations. *)
Theorem storage_new_create_fails_forever (head : nat -> Storage.HeadBucket)
    (create_ok : nat -> bool) :
  (forall i, head i = Storage.NotFound) -> (forall i, create_ok i = false) ->
  forall fuel, Storage.new fuel head create_ok = None.
Proof.
  intros Hh Hc fuel. unfold Storage.new.
  assert (H : forall f i a, Storage.init_loop f head create_ok i a = None).
  { induction f as [|f IH]; intros i a; [reflexivity|].
    cbn [Storage.init_loop]. rewrite Hh, Hc. apply IH. }
  apply H.
Qed.

Lemma storage_new_create_fails_forever_witness :
  Storage.new 100 (fun _ => Storage.NotFound) (fun _ => false) = None.
Proof.
  exact (storage_new_create_fails_forever _ _ (fun _ => eq_refl) (fun _ => eq_refl) 100).
Defined.

Lemma connect_loop_fail connect e (He : connect 14%nat = Err e)
    (Hall : forall m, (m < 15)%nat -> exists e', connect m = Err e') k :
  forall fuel a, (a + k = 14)%nat -> (k < fuel)%nat ->
  Main.connect_loop fuel connect a = Some (Err e, k).
Proof.
  induction k as [|k IH]; intros [|fuel] a Ha Hf; try lia; cbn [Main.connect_loop].
  - replace a with 14%nat by lia. rewrite He. reflexivity.
  - destruct (Hall a ltac:(lia)) as [e' Ea]. rewrite Ea.
    replace (15 <=? S a)%nat with false by (symmetry; apply Nat.leb_gt; lia).
    rewrite (IH fuel (S a)) by lia. reflexivity.
Qed.

Lemma connect_loop_success connect n u
    (Hn : connect n = Ok u) (Hbefore : forall m, (m < n)%nat -> exists e, connect m = Err e) k :
  forall fuel a, (a + k = n)%nat -> (n < 15)%nat -> (k < fuel)%nat ->
  Main.connect_loop fuel connect a = Some (Ok tt, k).
Proof.
  induction k as [|k IH]; intros [|fuel] a Ha Hn15 Hf; try lia; cbn [Main.connect_loop].
  - replace a with n by lia. rewrite Hn. reflexivity.
  - destruct (Hbefore a ltac:(lia)) as [e Ea]. rewrite Ea.
    replace (15 <=? S a)%nat with false by (symmetry; apply Nat.leb_gt; lia).
    rewrite (IH fuel (S a)) by lia. reflexivity.
Qed.

(** [main]'s database connection loop: when the first 15 connections fail,
    it returns the 15th error after 14 two-second waits; when the first
    success is connection number [n] (from 0) with [n < 15], it connects
    after exactly [n] waits. *)
Theorem connect_db_outcome (connect : nat -> result unit) :
  (forall e fuel, (forall m, (m < 15)%nat -> exists e', connect m = Err e') ->
     connect 14%nat = Err e -> (15 <= fuel)%nat ->
     Main.connect_db fuel connect = Some (Err e, 14%nat))
  /\ (forall n u fuel, connect n = Ok u ->
        (forall m, (m < n)%nat -> exists e, connect m = Err e) ->
        (n < 15)%nat -> (n < fuel)%nat ->
        Main.connect_db fuel connect = Some (Ok tt, n)).
Proof.
  split.
  - intros e fuel Hall He Hf. unfold Main.connect_db.
    apply (connect_loop_fail connect e He Hall); lia.
  - intros n u fuel Hn Hb H15 Hf. unfold Main.connect_db.
    apply (connect_loop_success connect n u Hn Hb); lia.
Qed.

Lemma connect_db_outcome_witness :
  Main.connect_db 20 (fun m => if (m <? 3)%nat then Err "connection refused" else Ok tt)
  = Some (Ok tt, 3%nat)
  /\ Main.connect_db 15 (fun _ => Err "connection refused")
     = Some (Err "connection refused", 14%nat).
Proof.
  split.
  - apply (proj2 (connect_db_outcome
                    (fun m => if (m <? 3)%nat then Err "connection refused" else Ok tt))
             3%nat tt 20%nat eq_refl).
    + intros m Hm. exists "connection refused".
      replace (m <? 3)%nat with true by (symmetry; apply Nat.ltb_lt; exact Hm). reflexivity.
    + lia.
    + lia.
  - apply (proj1 (connect_db_outcome (fun _ => Err "connection refused"))).
    + intros m _. exists "connection refused". reflexivity.
    + reflexivity.
    + lia.
Defined.
